(** * Volyent desktop: the xray-core connection manager

    A shallow embedding of [apps/desktop/electron/xray-manager.js]
    (class [XrayManager]) and the properties of its parser, its config
    builder, its connect/disconnect state machine and its traffic
    statistics.  The parser that the window applies to the same keys,
    [parseVlessUri] of [apps/desktop/src/App.jsx], is embedded next to it.

    Conventions of the embedding.
    - A JavaScript string is a Stdlib [string]; each character stands for
      one code unit, so the model covers text whose code units are below
      256.  The one place where other text can arise, the percent-decoded
      label, keeps it in its UTF-8 bytes.
    - A JavaScript number that the code only uses as an integer or as [NaN]
      is a [JsNum]; counters are mathematical integers (the rounding of
      doubles above 2^53 is not modelled).
    - Code that can throw runs in the monad [M]: manager state, a trace of
      the effects on the host, and a result that is a value or a thrown
      message.  What the host answers (file contents, command failures,
      process output) is given to each operation as an explicit
      environment record.
    - [connect] is modelled as one uninterrupted operation: the events that
      the child process delivers during the readiness wait are a list, and
      no other manager method runs in between. *)

From Stdlib Require Import ZArith Ascii String List Bool Lia.
From stdpp Require Import base option list gmap strings.

Local Open Scope string_scope.
Local Open Scope Z_scope.

(** ** JavaScript string primitives *)

Module Js.

(** [s.slice(0, n)] *)
Fixpoint take (n : nat) (s : string) : string :=
  match n, s with
  | S n', String c s' => String c (take n' s')
  | _, _ => EmptyString
  end.

(** [s.slice(1)] *)
Definition slice1 (s : string) : string :=
  match s with
  | EmptyString => EmptyString
  | String _ s' => s'
  end.

(** [s.slice(n)] for [n >= 0] *)
Fixpoint drop (n : nat) (s : string) : string :=
  match n, s with
  | S n', String _ s' => drop n' s'
  | _, _ => s
  end.

(** [s.slice(0, i)]: a negative [i] counts from the end. *)
Definition slice_to (i : Z) (s : string) : string :=
  if i <? 0 then take (String.length s - Z.to_nat (- i)) s
  else take (Z.to_nat i) s.

(** [s.indexOf(c)] and [s.lastIndexOf(c)] for a single character, [-1]
    when it does not occur. *)
Fixpoint indexOf_from (c : ascii) (i : Z) (s : string) : Z :=
  match s with
  | EmptyString => -1
  | String x s' => if Ascii.eqb x c then i else indexOf_from c (i + 1) s'
  end.

Definition indexOf (c : ascii) (s : string) : Z := indexOf_from c 0 s.

Fixpoint lastIndexOf_from (c : ascii) (i last : Z) (s : string) : Z :=
  match s with
  | EmptyString => last
  | String x s' => lastIndexOf_from c (i + 1) (if Ascii.eqb x c then i else last) s'
  end.

Definition lastIndexOf (c : ascii) (s : string) : Z := lastIndexOf_from c 0 (-1) s.

(** [s.startsWith(p)], returning what follows the prefix. *)
Fixpoint strip_prefix (p s : string) : option string :=
  match p, s with
  | EmptyString, _ => Some s
  | String a p', String b s' =>
      if Ascii.eqb a b then strip_prefix p' s' else None
  | String _ _, EmptyString => None
  end.

Definition startsWith (s p : string) : bool :=
  match strip_prefix p s with Some _ => true | None => false end.

(** [s.includes(sub)] *)
Fixpoint includes (s sub : string) : bool :=
  startsWith s sub ||
  match s with
  | EmptyString => false
  | String _ s' => includes s' sub
  end.

(** White space and line terminators among the code units below 256:
    TAB, LF, VT, FF, CR, SP and NBSP. *)
Definition is_space (c : ascii) : bool :=
  let n := nat_of_ascii c in
  ((9 <=? n) && (n <=? 13))%nat || (n =? 32)%nat || (n =? 160)%nat.

(** Line terminators, the characters that [.] of a regular expression
    does not match. *)
Definition is_line_terminator (c : ascii) : bool :=
  let n := nat_of_ascii c in (n =? 10)%nat || (n =? 13)%nat.

Fixpoint trimStart (s : string) : string :=
  match s with
  | String c s' => if is_space c then trimStart s' else s
  | EmptyString => EmptyString
  end.

Fixpoint trimEnd (s : string) : string :=
  match s with
  | EmptyString => EmptyString
  | String c s' =>
      match trimEnd s' with
      | EmptyString => if is_space c then EmptyString else String c EmptyString
      | t => String c t
      end
  end.

(** [s.trim()] *)
Definition trim (s : string) : string := trimEnd (trimStart s).

(** The longest prefix of characters satisfying [p], and the rest. *)
Fixpoint span (p : ascii -> bool) (s : string) : string * string :=
  match s with
  | String c s' =>
      if p c then let '(a, b) := span p s' in (String c a, b)
      else (EmptyString, s)
  | EmptyString => (EmptyString, EmptyString)
  end.

(** [s.split(',')]: never empty, [''.split(',')] is [['']]. *)
Fixpoint split_on (sep : ascii) (s : string) : list string :=
  match s with
  | EmptyString => [EmptyString]
  | String c s' =>
      if Ascii.eqb c sep then EmptyString :: split_on sep s'
      else match split_on sep s' with
           | x :: xs => String c x :: xs
           | [] => [String c EmptyString]
           end
  end.

(** Truthiness of a string: only [''] is falsy. *)
Definition truthy (s : string) : bool :=
  match s with EmptyString => false | _ => true end.

(** [x || d] where [x] is a property that may be missing. *)
Definition or_default (x : option string) (d : string) : string :=
  match x with
  | Some s => if truthy s then s else d
  | None => d
  end.

(** *** Numbers: integers and [NaN] *)

Inductive JsNum := NaN | Num (z : Z).

Definition digit_val (c : ascii) : option Z :=
  let n := nat_of_ascii c in
  if ((48 <=? n) && (n <=? 57))%nat then Some (Z.of_nat n - 48) else None.

(** Value of the leading decimal digits of [s], given the value [acc] of
    the digits already read; [None] when there was no digit at all. *)
Fixpoint digits (seen : bool) (acc : Z) (s : string) : option Z :=
  match s with
  | String c s' =>
      match digit_val c with
      | Some d => digits true (10 * acc + d) s'
      | None => if seen then Some acc else None
      end
  | EmptyString => if seen then Some acc else None
  end.

(** [parseInt(s, 10)]: leading white space is skipped, one sign is
    accepted, then the longest run of decimal digits is read; no digit
    gives [NaN]. *)
Definition parseInt (s : string) : JsNum :=
  match trimStart s with
  | String "-" r => match digits false 0 r with Some v => Num (- v) | None => NaN end
  | String "+" r => match digits false 0 r with Some v => Num v | None => NaN end
  | r => match digits false 0 r with Some v => Num v | None => NaN end
  end.

(** [x || 0] on a number: [NaN] and [0] are falsy. *)
Definition or_zero (x : JsNum) : Z :=
  match x with NaN => 0 | Num z => z end.

(** *** [decodeURIComponent] *)

(** The input cut into literal characters and [%XX] octets; [None] when a
    [%] is not followed by two hexadecimal digits. *)
Inductive Tok := Lit (c : ascii) | Oct (b : N).

Definition hex_val (c : ascii) : option N :=
  let n := N_of_ascii c in
  if ((48 <=? n) && (n <=? 57))%N then Some (n - 48)%N
  else if ((65 <=? n) && (n <=? 70))%N then Some (n - 55)%N
  else if ((97 <=? n) && (n <=? 102))%N then Some (n - 87)%N
  else None.

Fixpoint tokens (s : string) : option (list Tok) :=
  match s with
  | EmptyString => Some []
  | String c r =>
      if Ascii.eqb c "%" then
        match r with
        | String h (String l r') =>
            match hex_val h, hex_val l with
            | Some a, Some b =>
                match tokens r' with
                | Some ts => Some (Oct (16 * a + b) :: ts)
                | None => None
                end
            | _, _ => None
            end
        | _ => None
        end
      else
        match tokens r with
        | Some ts => Some (Lit c :: ts)
        | None => None
        end
  end.

(** For a leading octet above 127: the length of its UTF-8 sequence and
    the range allowed for the second octet (well-formed UTF-8: no overlong
    form, no surrogate, nothing above U+10FFFF). *)
Definition lead (b : N) : option (nat * N * N) :=
  (if (0xC2 <=? b) && (b <=? 0xDF) then Some (2%nat, 0x80, 0xBF)
   else if b =? 0xE0 then Some (3%nat, 0xA0, 0xBF)
   else if b =? 0xED then Some (3%nat, 0x80, 0x9F)
   else if (0xE1 <=? b) && (b <=? 0xEF) then Some (3%nat, 0x80, 0xBF)
   else if b =? 0xF0 then Some (4%nat, 0x90, 0xBF)
   else if (0xF1 <=? b) && (b <=? 0xF3) then Some (4%nat, 0x80, 0xBF)
   else if b =? 0xF4 then Some (4%nat, 0x80, 0x8F)
   else None)%N.

Definition cont (t : Tok) (lo hi : N) : option ascii :=
  match t with
  | Oct b => if ((lo <=? b) && (b <=? hi))%N then Some (ascii_of_N b) else None
  | Lit _ => None
  end.

Fixpoint utf8 (ts : list Tok) : option string :=
  match ts with
  | [] => Some EmptyString
  | Lit c :: r => String c <$> utf8 r
  | Oct b :: r =>
      if (b <? 0x80)%N then String (ascii_of_N b) <$> utf8 r
      else
        match lead b, r with
        | Some (2%nat, lo, hi), t1 :: r1 =>
            match cont t1 lo hi with
            | Some c1 => (fun s => String (ascii_of_N b) (String c1 s)) <$> utf8 r1
            | None => None
            end
        | Some (3%nat, lo, hi), t1 :: t2 :: r2 =>
            match cont t1 lo hi, cont t2 0x80%N 0xBF%N with
            | Some c1, Some c2 =>
                (fun s => String (ascii_of_N b) (String c1 (String c2 s))) <$> utf8 r2
            | _, _ => None
            end
        | Some (4%nat, lo, hi), t1 :: t2 :: t3 :: r3 =>
            match cont t1 lo hi, cont t2 0x80%N 0xBF%N, cont t3 0x80%N 0xBF%N with
            | Some c1, Some c2, Some c3 =>
                (fun s => String (ascii_of_N b)
                            (String c1 (String c2 (String c3 s)))) <$> utf8 r3
            | _, _, _ => None
            end
        | _, _ => None
        end
  end.

(** [decodeURIComponent(s)]; [None] stands for the [URIError] it throws. *)
Definition decodeURIComponent (s : string) : option string :=
  match tokens s with
  | Some ts => utf8 ts
  | None => None
  end.

End Js.

(** ** Thrown errors *)

(** The outcome of code that may throw: a value, or the [message] of the
    error thrown. *)
Inductive Exc (A : Type) : Type :=
  | Ok (a : A)
  | Throw (message : string).
Arguments Ok {A} a.
Arguments Throw {A} message.

#[global] Instance exc_ret : MRet Exc := fun A a => Ok a.
#[global] Instance exc_bind : MBind Exc := fun A B f m =>
  match m with
  | Ok a => f a
  | Throw e => Throw e
  end.

Definition throws {A} (m : Exc A) : bool :=
  match m with Ok _ => false | Throw _ => true end.

(** ** The parsed URL *)

(** What [new URL(uri)] exposes to [parseVlessUri].  The URL parser is the
    platform's; the model takes its outcome as the argument: either the
    constructor throws, or it yields these components.  [protocol] ends
    with its colon, [port] is empty or a run of digits, [hash] is empty
    or starts with [#], [searchParams] lists the decoded pairs in order. *)
Record URL := {
  protocol : string;
  username : string;
  hostname : string;
  port : string;
  searchParams : list (string * string);
  hash : string;
}.

Inductive Uri :=
  | InvalidUrl (message : string)
  | ValidUrl (url : URL).

Definition new_URL (uri : Uri) : Exc URL :=
  match uri with
  | InvalidUrl e => Throw e
  | ValidUrl u => Ok u
  end.

(** [Object.fromEntries(url.searchParams)]: a later pair overwrites an
    earlier one with the same key. *)
Definition fromEntries (l : list (string * string)) : gmap string string :=
  fold_left (fun m kv => <[kv.1 := kv.2]> m) l ∅.

(** ** The outbound descriptor built by [parseVlessUri] *)

(** The records follow the object literals of the source.  Where two of
    them have a member of the same name, one carries a prefix here
    ([tls_serverName], [out_protocol], [in_tag], [vnext_port],
    [ts_uplink]); [settings.vnext] of an outbound is its [vnext], absent
    from the plain outbounds. *)

Record TlsSettings := {
  tls_serverName : string;
  tls_allowInsecure : bool;
  tls_fingerprint : string;
  tls_alpn : option (list string);
}.

Record RealitySettings := {
  serverName : string;
  fingerprint : string;
  publicKey : string;
  shortId : string;
  spiderX : string;
}.

Record WsSettings := { ws_path : string; ws_Host : string }.

Record GrpcSettings := { serviceName : string }.

(** [tcpSettings.header]: [{type, request: {path: [..], headers: {Host: [..]}}}] *)
Record TcpSettings := {
  header_type : string;
  request_path : list string;
  request_Host : list string;
}.

Record StreamSettings := {
  network : string;
  security : option string;
  tlsSettings : option TlsSettings;
  realitySettings : option RealitySettings;
  wsSettings : option WsSettings;
  grpcSettings : option GrpcSettings;
  tcpSettings : option TcpSettings;
}.

(** A property that is absent from the object is [None]. *)
Record User := {
  id : string;
  encryption : option string;
  flow : option string;
}.

Record VNext := {
  address : string;
  vnext_port : Js.JsNum;
  users : list User;
}.

Record Outbound := {
  tag : string;
  out_protocol : string;
  vnext : option (list VNext);
  streamSettings : option StreamSettings;
}.

Record Descriptor := {
  label : string;
  outbound : Outbound;
}.

Section Parser.

Variable params : gmap string string.
Variable host : string.

(** [params.k === v] *)
Definition param_is (k v : string) : bool :=
  match params !! k with
  | Some s => String.eqb s v
  | None => false
  end.

(** The [// TLS / Reality] block. *)
Definition security_of : option string :=
  if param_is "security" "tls" then Some "tls"
  else if param_is "security" "reality" then Some "reality"
  else None.

Definition tlsSettings_of : option TlsSettings :=
  if param_is "security" "tls" then
      Some {| tls_serverName := Js.or_default (params !! "sni") host;
              tls_allowInsecure := false;
              tls_fingerprint := Js.or_default (params !! "fp") "chrome";
              tls_alpn :=
                match params !! "alpn" with
                | Some a => if Js.truthy a then Some (Js.split_on "," a) else None
                | None => None
                end |}
  else None.

Definition realitySettings_of : option RealitySettings :=
  if param_is "security" "tls" then None
  else if param_is "security" "reality" then
      Some {| serverName := Js.or_default (params !! "sni") "";
              fingerprint := Js.or_default (params !! "fp") "chrome";
              publicKey := Js.or_default (params !! "pbk") "";
              shortId := Js.or_default (params !! "sid") "";
              spiderX := Js.or_default (params !! "spx") "" |}
  else None.

(** The [// Transport] block, for the network [net]. *)
Definition wsSettings_of (net : string) : option WsSettings :=
  if String.eqb net "ws" then
    Some {| ws_path := Js.or_default (params !! "path") "/";
            ws_Host := Js.or_default (params !! "host") host |}
  else None.

Definition grpcSettings_of (net : string) : option GrpcSettings :=
  if String.eqb net "ws" then None
  else if String.eqb net "grpc" then
    Some {| serviceName := Js.or_default (params !! "serviceName") "" |}
  else None.

Definition tcpSettings_of (net : string) : option TcpSettings :=
  if String.eqb net "ws" then None
  else if String.eqb net "grpc" then None
  else if String.eqb net "tcp" && param_is "headerType" "http" then
    Some {| header_type := "http";
            request_path := [Js.or_default (params !! "path") "/"];
            request_Host := [Js.or_default (params !! "host") host] |}
  else None.

Definition streamSettings_of : StreamSettings :=
  let net := Js.or_default (params !! "type") "tcp" in
  {| network := net;
     security := security_of;
     tlsSettings := tlsSettings_of;
     realitySettings := realitySettings_of;
     wsSettings := wsSettings_of net;
     grpcSettings := grpcSettings_of net;
     tcpSettings := tcpSettings_of net |}.

(** [user], with [flow] added only when [params.flow] is truthy. *)
Definition user_of (uuid : string) : User :=
  {| id := uuid;
     encryption := Some (Js.or_default (params !! "encryption") "none");
     flow :=
       match params !! "flow" with
       | Some f => if Js.truthy f then Some f else None
       | None => None
       end |}.

End Parser.

(** [parseVlessUri(uri)].  Two steps can throw: the [URL] constructor and
    [decodeURIComponent] on the fragment. *)
Definition parseVlessUri (uri : Uri) : Exc Descriptor :=
  url ← new_URL uri;
  let uuid := username url in
  let host := hostname url in
  let port := Js.parseInt (port url) in
  let params := fromEntries (searchParams url) in
  label ←
    match Js.decodeURIComponent
            (Js.or_default (Some (Js.slice1 (hash url))) "Volyent") with
    | Some l => Ok l
    | None => Throw "URI malformed"
    end;
  mret {| label := label;
          outbound :=
            {| tag := "proxy";
               out_protocol := "vless";
               vnext := Some [ {| address := host;
                                  vnext_port := port;
                                  users := [user_of params uuid] |} ];
               streamSettings := Some (streamSettings_of params host) |} |}.

(** ** The generated xray configuration *)

Definition SOCKS_PORT : Z := 10808.
Definition HTTP_PORT : Z := 10809.
Definition API_PORT : Z := 10085.

Inductive InboundSettings :=
  | SocksSettings (auth : string) (udp : bool)
  | HttpSettings
  | DokodemoSettings (address : string).

Record Inbound := {
  in_tag : string;
  in_protocol : string;
  listen : string;
  in_port : Z;
  in_settings : InboundSettings;
}.

Record Rule := {
  rule_type : string;
  inboundTag : option (list string);
  outboundTag : string;
  ip : option (list string);
}.

Record Config := {
  loglevel : string;
  api_tag : string;
  api_services : list string;
  policy_stats : list (string * bool);
  inbounds : list Inbound;
  outbounds : list Outbound;
  domainStrategy : string;
  rules : list Rule;
}.

Definition plain_outbound (t p : string) : Outbound :=
  {| tag := t; out_protocol := p; vnext := None; streamSettings := None |}.

(** The object literal of [generateConfig], around the parsed outbound.
    Its empty [stats: {}] member carries nothing and is left out. *)
Definition config_around (proxy : Outbound) : Config :=
  {| loglevel := "warning";
     api_tag := "api";
     api_services := ["StatsService"];
     policy_stats := [("statsInboundUplink", true);
                      ("statsInboundDownlink", true);
                      ("statsOutboundUplink", true);
                      ("statsOutboundDownlink", true)];
     inbounds :=
       [ {| in_tag := "socks-in"; in_protocol := "socks";
            listen := "127.0.0.1"; in_port := SOCKS_PORT;
            in_settings := SocksSettings "noauth" true |};
         {| in_tag := "http-in"; in_protocol := "http";
            listen := "127.0.0.1"; in_port := HTTP_PORT;
            in_settings := HttpSettings |};
         {| in_tag := "api"; in_protocol := "dokodemo-door";
            listen := "127.0.0.1"; in_port := API_PORT;
            in_settings := DokodemoSettings "127.0.0.1" |} ];
     outbounds :=
       [ proxy;
         plain_outbound "direct" "freedom";
         plain_outbound "block" "blackhole" ];
     domainStrategy := "AsIs";
     rules :=
       [ {| rule_type := "field"; inboundTag := Some ["api"];
            outboundTag := "api"; ip := None |};
         {| rule_type := "field"; inboundTag := None;
            outboundTag := "direct";
            ip := Some ["10.0.0.0/8"; "172.16.0.0/12";
                        "192.168.0.0/16"; "127.0.0.0/8"] |} ] |}.

(** [generateConfig(vlessUri)]: it parses the URI itself, then wraps the
    outbound in the fixed inbounds, outbounds and routing rules. *)
Definition generateConfig (vlessUri : Uri) : Exc Config :=
  d ← parseVlessUri vlessUri;
  mret (config_around (outbound d)).

(** ** The manager: state, host effects, thrown errors *)

Record Stats := { uplink : Z; downlink : Z }.

Inductive Status := Disconnected | Connecting | Connected | Error.

#[global] Instance Status_eq_dec : EqDecision Status.
Proof. solve_decision. Defined.

(** [getXrayPath] looks in two places. *)
Inductive XrayPath := ProdPath | DevPath.

(** The handle returned by [spawn]. *)
Record ChildProcess := { binary : XrayPath }.

Record Manager := {
  process : option ChildProcess;
  status : Status;
  error : option string;
  activeNetworkService : option string;
  cumulativeStats : Stats;
}.

Inductive ProxyKind := Socks | Web | SecureWeb.

(** The [networksetup] sub-commands the manager runs:
    [-set<kind>proxy svc 127.0.0.1 port] and [-set<kind>proxystate svc on|off]. *)
Inductive NetCmd :=
  | SetProxy (k : ProxyKind) (port : Z)
  | SetState (k : ProxyKind) (on : bool).

(** What the manager does to the host, in order.  An event records that
    the call was made; whether it failed is the environment's answer.
    Two events differ: [Spawn] records that [spawn] returned a child
    process, and [Folded] is not a host call, it marks that both [+=] of
    [_saveCumulativeFromSession] have run, with the amounts added. *)
Inductive Event :=
  | WriteConfig (c : Config)
  | Spawn (path : XrayPath)
  | Kill (p : ChildProcess)
  | Networksetup (cmd : NetCmd) (svc : string)
  | UnlinkConfig
  | StatsQuery (path : XrayPath) (pattern : string)
  | Folded (up down : Z)
  | WriteStats (s : Stats).

Definition M (A : Type) : Type := Manager -> Exc A * Manager * list Event.

#[global] Instance M_ret : MRet M := fun A a m => (Ok a, m, []).
#[global] Instance M_bind : MBind M := fun A B f c m =>
  match c m with
  | (Ok a, m1, t1) => let '(r, m2, t2) := f a m1 in (r, m2, (t1 ++ t2)%list)
  | (Throw e, m1, t1) => (Throw e, m1, t1)
  end.

Definition get : M Manager := fun m => (Ok m, m, []).
Definition put (m' : Manager) : M unit := fun _ => (Ok tt, m', []).
Definition throw {A} (e : string) : M A := fun m => (Throw e, m, []).
Definition emit (ev : Event) : M unit := fun m => (Ok tt, m, [ev]).
Definition lift {A} (x : Exc A) : M A := fun m => (x, m, []).

(** [try { body } catch (err) { handler err.message }]: what [body] did
    before it threw stays done. *)
Definition try_catch {A} (body : M A) (handler : string -> M A) : M A := fun m =>
  match body m with
  | (Ok a, m1, t1) => (Ok a, m1, t1)
  | (Throw e, m1, t1) => let '(r, m2, t2) := handler e m1 in (r, m2, (t1 ++ t2)%list)
  end.

(** A host call: it is made, then it throws or returns, as the
    environment says. *)
Definition host (ev : Event) (fails : option string) : M unit :=
  emit ev;;
  match fails with
  | Some e => throw e
  | None => mret tt
  end.

Definition set_process (p : option ChildProcess) : M unit :=
  m ← get;
  put {| process := p; status := status m; error := error m;
         activeNetworkService := activeNetworkService m;
         cumulativeStats := cumulativeStats m |}.

Definition set_status (s : Status) : M unit :=
  m ← get;
  put {| process := process m; status := s; error := error m;
         activeNetworkService := activeNetworkService m;
         cumulativeStats := cumulativeStats m |}.

Definition set_error (e : option string) : M unit :=
  m ← get;
  put {| process := process m; status := status m; error := e;
         activeNetworkService := activeNetworkService m;
         cumulativeStats := cumulativeStats m |}.

Definition set_activeNetworkService (svc : string) : M unit :=
  m ← get;
  put {| process := process m; status := status m; error := error m;
         activeNetworkService := Some svc;
         cumulativeStats := cumulativeStats m |}.

Definition set_cumulativeStats (s : Stats) : M unit :=
  m ← get;
  put {| process := process m; status := status m; error := error m;
         activeNetworkService := activeNetworkService m;
         cumulativeStats := s |}.

(** *** The durable statistics record *)

(** What the constructor finds at [STATS_PATH].  The file is written by
    [_saveStats] only, so a record that parses is taken to have the shape
    it writes: two numeric totals. *)
Inductive StatsFile :=
  | Absent
  | Unreadable (message : string)
  | Corrupt (message : string)
  | Stored (s : Stats).

Definition existsSync (f : StatsFile) : bool :=
  match f with Absent => false | _ => true end.

(** [JSON.parse(fs.readFileSync(STATS_PATH, 'utf8'))] *)
Definition read_and_parse (f : StatsFile) : Exc Stats :=
  match f with
  | Absent => Throw "ENOENT"
  | Unreadable e => Throw e
  | Corrupt e => Throw e
  | Stored s => Ok s
  end.

(** [_loadStats()]: the [try] returns the parsed record, and every other
    path reaches the final [return]. *)
Definition _loadStats (f : StatsFile) : Exc Stats :=
  let attempt : Exc (option Stats) :=
    if existsSync f then s ← read_and_parse f; mret (Some s)
    else mret None in
  match attempt with
  | Ok (Some s) => Ok s
  | Ok None | Throw _ => Ok {| uplink := 0; downlink := 0 |}
  end.

(** [new XrayManager()] *)
Definition constructor (f : StatsFile) : Exc Manager :=
  s ← _loadStats f;
  mret {| process := None; status := Disconnected; error := None;
          activeNetworkService := None; cumulativeStats := s |}.

(** [_saveStats()] *)
Definition _saveStats (fails : option string) : M unit :=
  try_catch
    (m ← get; host (WriteStats (cumulativeStats m)) fails)
    (fun _ => mret tt).

(** *** Locating the engine *)

Record BinEnv := { prod_exists : bool; dev_exists : bool }.

Definition getXrayPath (b : BinEnv) : M XrayPath :=
  if prod_exists b then mret ProdPath
  else if dev_exists b then mret DevPath
  else throw "xray binary not found".

(** *** Traffic counters of the running engine *)

(** What [xray api statsquery] answers, once parsed: the call or
    [JSON.parse] throws, or the object has no [stat], or [stat] lists
    entries whose [value] is given by its text ([None] when the entry has
    no [value]). *)
Inductive QueryReply :=
  | QueryFails (message : string)
  | NoStat
  | Stat (values : list (option string)).

(** [parseInt(s.value, 10) || 0] *)
Definition value_of (v : option string) : Z :=
  Js.or_zero (match v with Some s => Js.parseInt s | None => Js.NaN end).

(** [data.stat.reduce((sum, s) => sum + (parseInt(s.value, 10) || 0), 0)] *)
Definition sum_values (vs : list (option string)) : Z :=
  fold_left (fun sum v => sum + value_of v) vs 0.

(** The local [queryStats(pattern)] of both statistics methods. *)
Definition queryStats (xrayPath : XrayPath) (pattern : string)
    (reply : QueryReply) : M Z :=
  try_catch
    (emit (StatsQuery xrayPath pattern);;
     match reply with
     | QueryFails e => throw e
     | NoStat => mret 0
     | Stat vs => mret (sum_values vs)
     end)
    (fun _ => mret 0).

Record FoldEnv := {
  fold_bin : BinEnv;
  fold_uplink : QueryReply;
  fold_downlink : QueryReply;
  save_fails : option string;
}.

(** [_saveCumulativeFromSession()] *)
Definition _saveCumulativeFromSession (e : FoldEnv) : M unit :=
  try_catch
    (xrayPath ← getXrayPath (fold_bin e);
     up ← queryStats xrayPath "uplink" (fold_uplink e);
     m ← get;
     set_cumulativeStats {| uplink := uplink (cumulativeStats m) + up;
                            downlink := downlink (cumulativeStats m) |};;
     down ← queryStats xrayPath "downlink" (fold_downlink e);
     m ← get;
     set_cumulativeStats {| uplink := uplink (cumulativeStats m);
                            downlink := downlink (cumulativeStats m) + down |};;
     emit (Folded up down);;
     _saveStats (save_fails e))
    (fun _ => mret tt).

(** *** The system proxy *)

Record ServiceEnv := {
  route_out : Exc string;
  hardwareports_out : Exc string;
}.

Definition newline : ascii := ascii_of_nat 10.

(** The two loops of [getActiveNetworkService]: [before] holds the lines
    already passed, nearest first. *)
Fixpoint find_service (route : string) (before lines : list string) : option string :=
  match lines with
  | [] => None
  | l :: rest =>
      if Js.includes l "Device:" && Js.includes l route then
        match List.find (fun x => Js.startsWith x "Hardware Port:") before with
        | Some h =>
            match Js.strip_prefix "Hardware Port:" h with
            | Some name => Some (Js.trim name)
            | None => Some (Js.trim h)
            end
        | None => find_service route (l :: before) rest
        end
      else find_service route (l :: before) rest
  end.

(** [getActiveNetworkService()]: any failure gives ['Wi-Fi']. *)
Definition getActiveNetworkService (e : ServiceEnv) : string :=
  match route_out e with
  | Throw _ => "Wi-Fi"
  | Ok out =>
      let route := Js.trim out in
      if negb (Js.truthy route) then "Wi-Fi"
      else
        match hardwareports_out e with
        | Throw _ => "Wi-Fi"
        | Ok services =>
            match find_service route [] (Js.split_on newline services) with
            | Some name => name
            | None => "Wi-Fi"
            end
        end
  end.

Definition networksetup (fails : NetCmd -> option string) (cmd : NetCmd)
    (svc : string) : M unit :=
  host (Networksetup cmd svc) (fails cmd).

Record ProxyEnv := {
  service_env : ServiceEnv;
  on_fails : NetCmd -> option string;
}.

(** [setSystemProxy()] *)
Definition setSystemProxy (e : ProxyEnv) : M bool :=
  try_catch
    (set_activeNetworkService (getActiveNetworkService (service_env e));;
     m ← get;
     let svc := default "" (activeNetworkService m) in
     networksetup (on_fails e) (SetProxy Socks SOCKS_PORT) svc;;
     networksetup (on_fails e) (SetState Socks true) svc;;
     networksetup (on_fails e) (SetProxy Web HTTP_PORT) svc;;
     networksetup (on_fails e) (SetState Web true) svc;;
     networksetup (on_fails e) (SetProxy SecureWeb HTTP_PORT) svc;;
     networksetup (on_fails e) (SetState SecureWeb true) svc;;
     mret true)
    (fun _ => mret false).

(** [unsetSystemProxy()]: one [try] around the three commands. *)
Definition unsetSystemProxy (off_fails : NetCmd -> option string) : M unit :=
  try_catch
    (m ← get;
     let svc := Js.or_default (activeNetworkService m) "Wi-Fi" in
     networksetup off_fails (SetState Socks false) svc;;
     networksetup off_fails (SetState Web false) svc;;
     networksetup off_fails (SetState SecureWeb false) svc)
    (fun _ => mret tt).

(** *** Teardown *)

Record CleanupEnv := {
  fold_env : FoldEnv;
  kill_fails : option string;
  off_fails : NetCmd -> option string;
  unlink_fails : option string;
}.

(** [this.process && this.status === 'connected']: a session is live. *)
Definition in_session (m : Manager) : bool :=
  bool_decide (is_Some (process m)) && bool_decide (status m = Connected).

(** [cleanup()] *)
Definition cleanup (e : CleanupEnv) : M unit :=
  m ← get;
  (if in_session m
   then _saveCumulativeFromSession (fold_env e)
   else mret tt);;
  m ← get;
  match process m with
  | Some p =>
      try_catch (host (Kill p) (kill_fails e)) (fun _ => mret tt);;
      set_process None
  | None => mret tt
  end;;
  unsetSystemProxy (off_fails e);;
  try_catch (host UnlinkConfig (unlink_fails e)) (fun _ => mret tt).

(** The [{ ok: true }] and [{ ok: false, error }] results. *)
Inductive Result :=
  | ok_true
  | ok_false (error : string).

(** [disconnect()] *)
Definition disconnect (e : CleanupEnv) : M Result :=
  cleanup e;;
  set_status Disconnected;;
  set_error None;;
  mret ok_true.

(** [getStatus()] *)
Definition getStatus : M (Status * option string) :=
  m ← get; mret (status m, error m).

(** *** Starting the engine *)

(** What the child process delivers while [connect] waits; the list ends
    where the 3000 ms timer fires.  An exit code is a number, or [None]
    for the [null] of a process ended by a signal. *)
Inductive ProcEvent :=
  | Stdout (data : string)
  | Stderr (data : string)
  | ProcError (message : string)
  | Exit (code : option Z).

(** The first group of [outputBuf.match(/Failed to start:(.+)/)]: the
    leftmost place where the literal is followed by at least one character
    that is not a line terminator, and the longest run of such
    characters. *)
Fixpoint failMatch (outputBuf : string) : option string :=
  let here :=
    match Js.strip_prefix "Failed to start:" outputBuf with
    | Some rest =>
        match Js.span (fun c => negb (Js.is_line_terminator c)) rest with
        | (EmptyString, _) => None
        | (g, _) => Some g
        end
    | None => None
    end in
  match here, outputBuf with
  | Some g, _ => Some g
  | None, String _ s' => failMatch s'
  | None, EmptyString => None
  end.

Definition errMsg (outputBuf : string) : string :=
  match failMatch outputBuf with
  | Some g => Js.take 150 (Js.trim g)
  | None => Js.take 200 outputBuf
  end.

(** [code !== 0] *)
Definition nonzero (code : option Z) : bool :=
  match code with Some 0 => false | _ => true end.

(** The promise that [connect] awaits, run over the events in order. *)
Fixpoint wait_ready (outputBuf : string) (evs : list ProcEvent) : M unit :=
  match evs with
  | [] => mret tt
  | Stdout msg :: rest =>
      if Js.includes msg "started" || Js.includes msg "listening" then mret tt
      else wait_ready (outputBuf ++ msg) rest
  | Stderr msg :: rest => wait_ready (outputBuf ++ msg) rest
  | ProcError e :: _ => throw ("xray spawn error: " ++ e)
  | Exit code :: rest =>
      m ← get;
      if nonzero code && bool_decide (status m = Connecting)
      then throw ("xray error: " ++ errMsg outputBuf)
      else wait_ready outputBuf rest
  end.

(** [spawn(xrayPath, ['run', '-config', CONFIG_PATH], ...)]: it throws, or
    it returns the handle of a new child process. *)
Definition spawn (xrayPath : XrayPath) (fails : option string) : M ChildProcess :=
  match fails with
  | Some e => throw e
  | None => emit (Spawn xrayPath);; mret {| binary := xrayPath |}
  end.

Record ConnectEnv := {
  before : CleanupEnv;
  write_fails : option string;
  bin_env : BinEnv;
  spawn_fails : option string;
  proc_events : list ProcEvent;
  proxy_env : ProxyEnv;
  after : CleanupEnv;
}.

(** [connect(vlessUri)] *)
Definition connect (e : ConnectEnv) (vlessUri : Uri) : M Result :=
  m ← get;
  (if bool_decide (is_Some (process m)) then disconnect (before e);; mret tt
   else mret tt);;
  set_status Connecting;;
  set_error None;;
  try_catch
    (config ← lift (generateConfig vlessUri);
     host (WriteConfig config) (write_fails e);;
     xrayPath ← getXrayPath (bin_env e);
     child ← spawn xrayPath (spawn_fails e);
     set_process (Some child);;
     wait_ready "" (proc_events e);;
     setSystemProxy (proxy_env e);;
     set_status Connected;;
     mret ok_true)
    (fun message =>
       set_status Error;;
       set_error (Some message);;
       cleanup (after e);;
       mret (ok_false message)).

(** *** Reading the statistics *)

(** The object returned by [getTrafficStats]: a copy of the cumulative
    record, with the two session properties when they were added. *)
Record TrafficStats := {
  ts_uplink : Z;
  ts_downlink : Z;
  sessionUplink : option Z;
  sessionDownlink : option Z;
}.

Record StatsEnv := {
  stats_bin : BinEnv;
  stats_uplink : QueryReply;
  stats_downlink : QueryReply;
}.

(** [getTrafficStats()].  Inside its [try] only [getXrayPath] can throw,
    before [stats] is touched, so the handler returns the plain copy. *)
Definition getTrafficStats (e : StatsEnv) : M TrafficStats :=
  m ← get;
  let stats := {| ts_uplink := uplink (cumulativeStats m);
                  ts_downlink := downlink (cumulativeStats m);
                  sessionUplink := None; sessionDownlink := None |} in
  if negb (bool_decide (status m = Connected)) || negb (bool_decide (is_Some (process m)))
  then mret stats
  else
    try_catch
      (xrayPath ← getXrayPath (stats_bin e);
       sessionUp ← queryStats xrayPath "uplink" (stats_uplink e);
       sessionDown ← queryStats xrayPath "downlink" (stats_downlink e);
       mret {| ts_uplink := uplink (cumulativeStats m) + sessionUp;
               ts_downlink := downlink (cumulativeStats m) + sessionDown;
               sessionUplink := Some sessionUp;
               sessionDownlink := Some sessionDown |})
      (fun _ => mret stats).

(** ** The renderer's parser *)

(** [parseVlessUri] of [apps/desktop/src/App.jsx], which the window runs on
    a key before it stores it; the manager is later handed the same text.
    It works on the text itself.  The [flag] it also computes, an emoji
    guessed from the label, is left out; [None] is its [null]. *)
Module Renderer.

Record Server := {
  uuid : string;
  host : string;
  port : Js.JsNum;
  label : string;
  query : string;
}.

Definition parseVlessUri (uri : string) : option Server :=
  if negb (Js.startsWith uri "vless://") then None
  else
    let withoutScheme := Js.drop 8 uri in
    let hashIdx := Js.lastIndexOf "#" withoutScheme in
    let mainPart :=
      if 0 <=? hashIdx then Js.slice_to hashIdx withoutScheme else withoutScheme in
    let remark :=
      if 0 <=? hashIdx then Js.drop (Z.to_nat (hashIdx + 1)) withoutScheme else "" in
    let qIdx := Js.indexOf "?" mainPart in
    let userHost := if 0 <=? qIdx then Js.slice_to qIdx mainPart else mainPart in
    let queryString :=
      if 0 <=? qIdx then Js.drop (Z.to_nat (qIdx + 1)) mainPart else "" in
    let atIdx := Js.indexOf "@" userHost in
    let uuid := Js.slice_to atIdx userHost in
    let hostPort := Js.drop (Z.to_nat (atIdx + 1)) userHost in
    let colonIdx := Js.lastIndexOf ":" hostPort in
    let host := if 0 <=? colonIdx then Js.slice_to colonIdx hostPort else hostPort in
    let port :=
      if 0 <=? colonIdx then Js.parseInt (Js.drop (Z.to_nat (colonIdx + 1)) hostPort)
      else Js.Num 443 in
    match (if Js.truthy remark then Js.decodeURIComponent remark else Some host) with
    | Some label =>
        Some {| uuid := uuid; host := host; port := port; label := label;
                query := queryString |}
    | None => None
    end.

End Renderer.

(** ** Reading a descriptor *)

(** The parts of a descriptor that the statements below read. *)
Definition descriptor_ports (d : Descriptor) : list Js.JsNum :=
  match vnext (outbound d) with
  | Some vs => List.map vnext_port vs
  | None => []
  end.

Definition descriptor_users (d : Descriptor) : list User :=
  match vnext (outbound d) with
  | Some vs => List.concat (List.map users vs)
  | None => []
  end.

Definition descriptor_reality (d : Descriptor) : option RealitySettings :=
  match streamSettings (outbound d) with
  | Some ss => realitySettings ss
  | None => None
  end.

(** The text that [parseVlessUri] hands to [decodeURIComponent]. *)
Definition raw_label (u : URL) : string :=
  Js.or_default (Some (Js.slice1 (hash u))) "Volyent".


(** ** Sample inputs *)

(** [vless://uuid@example.com?security=tls#Home]: no port. *)
Definition text_no_port : string := "vless://uuid@example.com?security=tls#Home".

Definition url_no_port : URL :=
  {| protocol := "vless:"; username := "uuid"; hostname := "example.com";
     port := ""; searchParams := [("security", "tls")]; hash := "#Home" |}.

(** [vless://uuid@example.com:443?security=reality]: no stealth parameter. *)
Definition url_reality_bare : URL :=
  {| protocol := "vless:"; username := "uuid"; hostname := "example.com";
     port := "443"; searchParams := [("security", "reality")]; hash := "" |}.

(** [vless://uuid@example.com:443]: no query at all. *)
Definition url_plain : URL :=
  {| protocol := "vless:"; username := "uuid"; hostname := "example.com";
     port := "443"; searchParams := []; hash := "" |}.

(** [http://uuid@example.com:8443]: another scheme. *)
Definition text_http : string := "http://uuid@example.com:8443".


(** [vless://uuid@example.com:443?security=reality#%zz]: a fragment that
    is not percent-encoded text. *)
Definition url_bad_label : URL :=
  {| protocol := "vless:"; username := "uuid"; hostname := "example.com";
     port := "443"; searchParams := [("security", "reality")]; hash := "#%zz" |}.


(** ** Closed forms of the teardown steps *)

(** What [queryStats] returns for a reply. *)
Definition query_sum (reply : QueryReply) : Z :=
  match reply with
  | Stat vs => sum_values vs
  | QueryFails _ | NoStat => 0
  end.

(** Where [getXrayPath] finds the engine, if it does. *)
Definition locate (b : BinEnv) : option XrayPath :=
  if prod_exists b then Some ProdPath
  else if dev_exists b then Some DevPath
  else None.

Definition with_stats (m : Manager) (s : Stats) : Manager :=
  {| process := process m; status := status m; error := error m;
     activeNetworkService := activeNetworkService m;
     cumulativeStats := s |}.

Definition with_process (m : Manager) (p : option ChildProcess) : Manager :=
  {| process := p; status := status m; error := error m;
     activeNetworkService := activeNetworkService m;
     cumulativeStats := cumulativeStats m |}.

Definition with_status (m : Manager) (s : Status) (e : option string) : Manager :=
  {| process := process m; status := s; error := e;
     activeNetworkService := activeNetworkService m;
     cumulativeStats := cumulativeStats m |}.

(** The totals after a fold with the replies of [e]. *)
Definition folded_stats (e : FoldEnv) (s : Stats) : Stats :=
  {| uplink := uplink s + query_sum (fold_uplink e);
     downlink := downlink s + query_sum (fold_downlink e) |}.

Definition fold_state (e : FoldEnv) (m : Manager) : Manager :=
  match locate (fold_bin e) with
  | Some _ => with_stats m (folded_stats e (cumulativeStats m))
  | None => m
  end.

Definition fold_trace (e : FoldEnv) (m : Manager) : list Event :=
  match locate (fold_bin e) with
  | Some p =>
      [ StatsQuery p "uplink"; StatsQuery p "downlink";
        Folded (query_sum (fold_uplink e)) (query_sum (fold_downlink e));
        WriteStats (folded_stats e (cumulativeStats m)) ]
  | None => []
  end.

(** The service that [unsetSystemProxy] addresses. *)
Definition off_service (m : Manager) : string :=
  Js.or_default (activeNetworkService m) "Wi-Fi".

(** The commands [unsetSystemProxy] runs: it stops at the first failure. *)
Definition off_trace (fails : NetCmd -> option string) (svc : string) : list Event :=
  Networksetup (SetState Socks false) svc ::
  match fails (SetState Socks false) with
  | Some _ => []
  | None =>
      Networksetup (SetState Web false) svc ::
      match fails (SetState Web false) with
      | Some _ => []
      | None => [Networksetup (SetState SecureWeb false) svc]
      end
  end.

Definition cleanup_state (e : CleanupEnv) (m : Manager) : Manager :=
  let m1 := if in_session m then fold_state (fold_env e) m else m in
  match process m1 with
  | Some _ => with_process m1 None
  | None => m1
  end.

Definition cleanup_trace (e : CleanupEnv) (m : Manager) : list Event :=
  ((if in_session m then fold_trace (fold_env e) m else []) ++
   match process m with Some p => [Kill p] | None => [] end ++
   off_trace (off_fails e) (off_service m) ++ [UnlinkConfig])%list.

(** ** Closed forms of the start steps *)

(** The six commands of [setSystemProxy], in order. *)
Definition on_cmds : list NetCmd :=
  [ SetProxy Socks SOCKS_PORT; SetState Socks true;
    SetProxy Web HTTP_PORT; SetState Web true;
    SetProxy SecureWeb HTTP_PORT; SetState SecureWeb true ].

(** Running commands inside one [try]: the events up to the first failure,
    and whether all went through. *)
Fixpoint run_cmds (fails : NetCmd -> option string) (svc : string)
    (cmds : list NetCmd) : list Event * bool :=
  match cmds with
  | [] => ([], true)
  | c :: rest =>
      match fails c with
      | Some _ => ([Networksetup c svc], false)
      | None =>
          let '(t, ok) := run_cmds fails svc rest in
          (Networksetup c svc :: t, ok)
      end
  end.

Definition with_service (m : Manager) (svc : string) : Manager :=
  {| process := process m; status := status m; error := error m;
     activeNetworkService := Some svc;
     cumulativeStats := cumulativeStats m |}.

(** How the readiness promise settles in state [st]: resolved, or rejected
    with a message. *)
Fixpoint settle (st : Status) (outputBuf : string) (evs : list ProcEvent) : Exc unit :=
  match evs with
  | [] => Ok tt
  | Stdout msg :: rest =>
      if Js.includes msg "started" || Js.includes msg "listening" then Ok tt
      else settle st (outputBuf ++ msg) rest
  | Stderr msg :: rest => settle st (outputBuf ++ msg) rest
  | ProcError e :: _ => Throw ("xray spawn error: " ++ e)
  | Exit code :: rest =>
      if nonzero code && bool_decide (st = Connecting)
      then Throw ("xray error: " ++ errMsg outputBuf)
      else settle st outputBuf rest
  end.

(** The body of the [try] in [connect], up to the readiness wait: either
    the engine is started, or a step failed with a message, after the given
    host calls, with or without a process to show for it. *)
Inductive Attempt :=
  | Started (config : Config) (path : XrayPath)
  | Failed (message : string) (calls : list Event) (spawned : option XrayPath).

Definition attempt (e : ConnectEnv) (uri : Uri) : Attempt :=
  match generateConfig uri with
  | Throw msg => Failed msg [] None
  | Ok config =>
      match write_fails e with
      | Some msg => Failed msg [WriteConfig config] None
      | None =>
          match locate (bin_env e) with
          | None => Failed "xray binary not found" [WriteConfig config] None
          | Some p =>
              match spawn_fails e with
              | Some msg => Failed msg [WriteConfig config] None
              | None =>
                  match settle Connecting "" (proc_events e) with
                  | Throw msg => Failed msg [WriteConfig config; Spawn p] (Some p)
                  | Ok _ => Started config p
                  end
              end
          end
      end
  end.

(** The state and trace after the [disconnect] that [connect] runs first
    when a process is held. *)
Definition pre_state (e : ConnectEnv) (m : Manager) : Manager :=
  with_status
    (if bool_decide (is_Some (process m))
     then with_status (cleanup_state (before e) m) Disconnected None
     else m)
    Connecting None.

Definition pre_trace (e : ConnectEnv) (m : Manager) : list Event :=
  if bool_decide (is_Some (process m)) then cleanup_trace (before e) m else [].

Definition proxy_service (e : ConnectEnv) : string :=
  getActiveNetworkService (service_env (proxy_env e)).

Definition connect_result (e : ConnectEnv) (uri : Uri) : Result :=
  match attempt e uri with
  | Started _ _ => ok_true
  | Failed msg _ _ => ok_false msg
  end.

Definition connect_state (e : ConnectEnv) (uri : Uri) (m : Manager) : Manager :=
  match attempt e uri with
  | Started _ p =>
      with_status
        (with_service (with_process (pre_state e m) (Some {| binary := p |}))
                      (proxy_service e))
        Connected None
  | Failed msg _ spawned =>
      cleanup_state (after e)
        (with_status
           (match spawned with
            | Some p => with_process (pre_state e m) (Some {| binary := p |})
            | None => pre_state e m
            end)
           Error (Some msg))
  end.

Definition connect_trace (e : ConnectEnv) (uri : Uri) (m : Manager) : list Event :=
  (pre_trace e m ++
   match attempt e uri with
   | Started config p =>
       [WriteConfig config; Spawn p] ++
       fst (run_cmds (on_fails (proxy_env e)) (proxy_service e) on_cmds)
   | Failed msg calls spawned =>
       calls ++
       cleanup_trace (after e)
         (with_status
            (match spawned with
             | Some p => with_process (pre_state e m) (Some {| binary := p |})
             | None => pre_state e m
             end)
            Error (Some msg))
   end)%list.

(** ** Reading a trace *)

Definition is_spawn (ev : Event) : bool :=
  match ev with Spawn _ => true | _ => false end.

(** A command that turns a proxy on, or points one at the engine. *)
Definition enables_proxy (ev : Event) : bool :=
  match ev with
  | Networksetup (SetProxy _ _) _ => true
  | Networksetup (SetState _ on) _ => on
  | _ => false
  end.


#[global] Instance XrayPath_eq_dec : EqDecision XrayPath.
Proof. solve_decision. Defined.

Definition is_kill_of (p : XrayPath) (ev : Event) : bool :=
  match ev with
  | Kill q => bool_decide (binary q = p)
  | _ => false
  end.

(** Every child process that was started is sent a kill later on. *)
Fixpoint spawned_are_killed (t : list Event) : bool :=
  match t with
  | [] => true
  | Spawn p :: rest => existsb (is_kill_of p) rest && spawned_are_killed rest
  | _ :: rest => spawned_are_killed rest
  end.

(** Events that touch neither a process nor the statistics: proxy-off
    commands and the removal of the config file. *)
Definition is_idle_teardown (ev : Event) : bool :=
  match ev with
  | Networksetup (SetState _ on) _ => negb on
  | UnlinkConfig => true
  | _ => false
  end.

Definition with_protocol (u : URL) (p : string) : URL :=
  {| protocol := p; username := username u; hostname := hostname u;
     port := port u; searchParams := searchParams u; hash := hash u |}.

(** ** Sample environments *)

Definition never : NetCmd -> option string := fun _ => None.

Definition engine_present : BinEnv := {| prod_exists := true; dev_exists := false |}.

Definition fold_1234 : FoldEnv :=
  {| fold_bin := engine_present;
     fold_uplink := Stat [Some "1200"; Some "34"];
     fold_downlink := Stat [Some "5600"; None];
     save_fails := None |}.

Definition calm_cleanup : CleanupEnv :=
  {| fold_env := fold_1234; kill_fails := None; off_fails := never;
     unlink_fails := None |}.

(** [route] names [en0], and [networksetup -listallhardwareports] lists it
    under the Wi-Fi port. *)
Definition wifi : ServiceEnv :=
  {| route_out := Ok ("en0" ++ String newline "");
     hardwareports_out :=
       Ok ("Hardware Port: Wi-Fi" ++ String newline
           ("Device: en0" ++ String newline "")) |}.

(** A host whose start steps answer as given, with a child process that
    delivers [evs] before the timer fires; every teardown call succeeds. *)
Definition host_env (write : option string) (bin : BinEnv)
    (spawn_err : option string) (evs : list ProcEvent) : ConnectEnv :=
  {| before := calm_cleanup; write_fails := write; bin_env := bin;
     spawn_fails := spawn_err; proc_events := evs;
     proxy_env := {| service_env := wifi; on_fails := never |};
     after := calm_cleanup |}.

(** A host on which every call succeeds. *)
Definition calm_connect (evs : list ProcEvent) : ConnectEnv :=
  host_env None engine_present None evs.

Definition engine_missing : BinEnv := {| prod_exists := false; dev_exists := false |}.

(** Lines of command output, each ended by a newline. *)
Definition lines (l : list string) : string :=
  fold_right (fun x acc => x ++ String newline acc) "" l.

(** A machine with a wired port listed before the Wi-Fi one; the default
    route goes through [en5]. *)
Definition wired : ServiceEnv :=
  {| route_out := Ok (lines ["en5"]);
     hardwareports_out :=
       Ok (lines [ "";
                   "Hardware Port: Thunderbolt Ethernet";
                   "Device: en5";
                   "Ethernet Address: a0:ce:c8:00:00:01";
                   "";
                   "Hardware Port: Wi-Fi";
                   "Device: en0";
                   "Ethernet Address: a0:ce:c8:00:00:02" ]) |}.

(** The manager right after construction with no stored record. *)
Definition fresh : Manager :=
  {| process := None; status := Disconnected; error := None;
     activeNetworkService := None;
     cumulativeStats := {| uplink := 0; downlink := 0 |} |}.

(** ** Sequences of calls *)

Inductive Op :=
  | Connect (e : ConnectEnv) (uri : Uri)
  | Disconnect (e : CleanupEnv).

Definition step (op : Op) : M Result :=
  match op with
  | Connect e uri => connect e uri
  | Disconnect e => disconnect e
  end.

(** A session is opened by a [connect] that returns [{ ok: true }]. *)
Definition opened (op : Op) (r : Result) : nat :=
  match op, r with
  | Connect _ _, ok_true => 1
  | _, _ => 0
  end.

(** The calls run one after the other; the value is the number of sessions
    they opened. *)
Fixpoint run (ops : list Op) : M nat :=
  match ops with
  | [] => mret 0%nat
  | op :: rest =>
      r ← step op;
      n ← run rest;
      mret (opened op r + n)%nat
  end.

(** The environment of the teardown in which a call can meet a live
    session: the [disconnect] itself, or the one [connect] runs first. *)
Definition teardown_env (op : Op) : CleanupEnv :=
  match op with
  | Connect e _ => before e
  | Disconnect e => e
  end.

(** The engine reports no negative counter. *)
Definition reply_nonneg (r : QueryReply) : Prop :=
  match r with
  | Stat vs => Forall (fun v => 0 <= value_of v) vs
  | QueryFails _ | NoStat => True
  end.

Definition counters_nonneg (e : FoldEnv) : Prop :=
  reply_nonneg (fold_uplink e) /\ reply_nonneg (fold_downlink e).

(** The engine binary is still where [getXrayPath] looks for it. *)
Definition engine_found (e : FoldEnv) : Prop :=
  prod_exists (fold_bin e) || dev_exists (fold_bin e) = true.

Definition is_fold (ev : Event) : bool :=
  match ev with Folded _ _ => true | _ => false end.

Definition count_folds (t : list Event) : nat := length (List.filter is_fold t).

#[global] Instance Stats_eq_dec : EqDecision Stats.
Proof. solve_decision. Defined.

(** Replaying a trace from the totals [s]: every fold must be followed at
    once by the write of the totals it has produced, and that by the kill
    of the process; the result is the totals after all the folds. *)
Fixpoint ledger (s : Stats) (t : list Event) : option Stats :=
  match t with
  | [] => Some s
  | Folded up down :: rest =>
      let s' := {| uplink := uplink s + up; downlink := downlink s + down |} in
      match rest with
      | WriteStats w :: Kill _ :: _ =>
          if bool_decide (w = s') then ledger s' rest else None
      | _ => None
      end
  | _ :: rest => ledger s rest
  end.

Definition live (m : Manager) : nat := if in_session m then 1 else 0.

(** A connect that succeeds, then reports traffic at the disconnect. *)
Definition one_cycle : list Op :=
  [ Connect (calm_connect [Stdout "Xray 1.8.4 started"]) (ValidUrl url_plain);
    Disconnect calm_cleanup;
    Disconnect calm_cleanup;
    Connect (calm_connect []) (ValidUrl url_plain);
    Connect (calm_connect [ProcError "spawn EACCES"]) (ValidUrl url_plain) ].

(** ** Reading the readiness wait *)

(** The check made on each chunk of standard output. *)
Definition has_marker (msg : string) : bool :=
  Js.includes msg "started" || Js.includes msg "listening".

(** A marker shows somewhere in the standard output. *)
Definition marker_in_stdout (evs : list ProcEvent) : bool :=
  existsb (fun ev => match ev with Stdout d => has_marker d | _ => false end) evs.

(** The process exits with a code other than zero within the wait. *)
Definition exits_nonzero (evs : list ProcEvent) : bool :=
  existsb (fun ev => match ev with Exit c => nonzero c | _ => false end) evs.

(** The events that settle the promise while the manager is connecting. *)
Definition settles (ev : ProcEvent) : bool :=
  match ev with
  | Stdout d => has_marker d
  | Stderr _ => false
  | ProcError _ => true
  | Exit c => nonzero c
  end.

Definition chunk (ev : ProcEvent) : string :=
  match ev with
  | Stdout d | Stderr d => d
  | ProcError _ | Exit _ => ""
  end.

(** The output of both streams up to the first settling event. *)
Fixpoint captured (evs : list ProcEvent) : string :=
  match evs with
  | [] => ""
  | ev :: rest => if settles ev then "" else chunk ev ++ captured rest
  end.

(** What the first settling event, if there is one, makes of [connect]. *)
Definition verdict (evs : list ProcEvent) : Result :=
  match List.find settles evs with
  | None | Some (Stdout _) | Some (Stderr _) => ok_true
  | Some (ProcError e) => ok_false ("xray spawn error: " ++ e)
  | Some (Exit _) => ok_false ("xray error: " ++ errMsg (captured evs))
  end.

(** The steps of [connect] before the wait all succeed. *)
Definition starts (e : ConnectEnv) (uri : Uri) : Prop :=
  throws (generateConfig uri) = false /\ write_fails e = None /\
  prod_exists (bin_env e) || dev_exists (bin_env e) = true /\
  spawn_fails e = None.

(** ** Reading the statistics record *)

(** The record is missing, cannot be read, or is not JSON. *)
Definition unusable (f : StatsFile) : Prop :=
  match f with
  | Absent | Unreadable _ | Corrupt _ => True
  | Stored _ => False
  end.

(** The copy of the cumulative record that [getTrafficStats] starts from. *)
Definition plain_stats (m : Manager) : TrafficStats :=
  {| ts_uplink := uplink (cumulativeStats m);
     ts_downlink := downlink (cumulativeStats m);
     sessionUplink := None; sessionDownlink := None |}.

Definition calm_stats : StatsEnv :=
  {| stats_bin := engine_present;
     stats_uplink := Stat [Some "700"];
     stats_downlink := Stat [Some "9000"; Some "1"] |}.

(** A live session with 100 and 200 bytes already folded. *)
Definition busy : Manager :=
  {| process := Some {| binary := ProdPath |}; status := Connected; error := None;
     activeNetworkService := Some "Wi-Fi";
     cumulativeStats := {| uplink := 100; downlink := 200 |} |}.

(** * Further definitions *)

(** ** Reading the stream settings *)

Definition descriptor_stream (d : Descriptor) : option StreamSettings :=
  streamSettings (outbound d).

(** How many of the three transport blocks an object carries. *)
Definition present {A} (o : option A) : nat :=
  match o with Some _ => 1 | None => 0 end.

Definition transport_blocks (ss : StreamSettings) : nat :=
  (present (wsSettings ss) + present (grpcSettings ss) + present (tcpSettings ss))%nat.

(** ** Child processes along a trace *)

(** The number of children alive after a trace, from the number alive
    before it: a spawn adds one, a kill ends one; [None] when a child is
    started while another is alive. *)
Fixpoint children (n : nat) (t : list Event) : option nat :=
  match t with
  | [] => Some n
  | Spawn _ :: rest =>
      match n with
      | O => children 1 rest
      | S _ => None
      end
  | Kill _ :: rest => children (Nat.pred n) rest
  | _ :: rest => children n rest
  end.

(** The children the manager holds: one or none. *)
Definition held (m : Manager) : nat := present (process m).


(** The state and the trace of a call. *)
Definition state_after {A} (c : M A) (m : Manager) : Manager := snd (fst (c m)).
Definition trace_of {A} (c : M A) (m : Manager) : list Event := snd (c m).
Definition result_of {A} (c : M A) (m : Manager) : Exc A := fst (fst (c m)).

(** ** Environments that differ in the proxy commands *)

(** The environment [e] with other answers to the commands of
    [setSystemProxy]. *)
Definition with_on_fails (e : ConnectEnv) (f : NetCmd -> option string) : ConnectEnv :=
  {| before := before e; write_fails := write_fails e; bin_env := bin_env e;
     spawn_fails := spawn_fails e; proc_events := proc_events e;
     proxy_env := {| service_env := service_env (proxy_env e); on_fails := f |};
     after := after e |}.

(** Every command fails. *)
Definition always (msg : string) : NetCmd -> option string := fun _ => Some msg.

(** The service named in a [networksetup] event. *)
Definition event_service (ev : Event) : option string :=
  match ev with
  | Networksetup _ svc => Some svc
  | _ => None
  end.

(** The inbound protocol a proxy kind is served by. *)
Definition inbound_protocol (k : ProxyKind) : string :=
  match k with
  | Socks => "socks"
  | Web | SecureWeb => "http"
  end.

(** ** Reading a listing, a diagnostic, the counters *)


(** A sample of engine output with a start failure on its second line. *)
Definition failed_output : string :=
  lines ["Xray 1.8.4 (Xray, Penetrates Everything.)";
         "Failed to start: main: failed to load config files";
         "main: exit"].

(** The counters as [getTrafficStats] meets them when nothing has changed
    since: the same binary and the same two replies that the fold will
    get. *)
Definition counters_of (f : FoldEnv) : StatsEnv :=
  {| stats_bin := fold_bin f; stats_uplink := fold_uplink f;
     stats_downlink := fold_downlink f |}.

(** The two totals of a statistics object. *)
Definition totals (r : TrafficStats) : Stats :=
  {| uplink := ts_uplink r; downlink := ts_downlink r |}.

(** ** Keys as the window reads them *)

(** [c] does not occur in [s]. *)
Fixpoint lacks (c : ascii) (s : string) : bool :=
  match s with
  | EmptyString => true
  | String x s' => negb (Ascii.eqb x c) && lacks c s'
  end.

(** An optional part of a key with the separator before it. *)
Definition part (sep : ascii) (o : option string) : string :=
  match o with
  | Some s => String sep s
  | None => ""
  end.

(** The text of a key: [vless://uuid@host], then the optional [:port],
    [?query] and [#remark]. *)
Definition key_text (uuid host : string) (port query remark : option string) : string :=
  "vless://" ++ uuid ++ "@" ++ host ++ part ":" port ++ part "?" query ++ part "#" remark.

(** ** The main process *)

(** The part of [electron/main.js] that drives the manager: the variable
    [vpnStatus], the tray menu built from it, and the handlers of the
    [vpn:*] channels.  A handler is taken to run to its end before the
    next one starts. *)
Module Main.

(** ['disconnected' | 'connecting' | 'connected'] *)
Inductive VpnStatus := disconnected | connecting | connected.

(** The context menu of the tray: none yet, or the one built for a
    status. *)
Definition Tray : Type := option VpnStatus.

(** [xray], [vpnStatus] and [tray], which is [None] while it is [null]. *)
Record State := {
  xray : Manager;
  vpnStatus : VpnStatus;
  tray : option Tray;
}.

Inductive Effect :=
  | Engine (ev : Event)
  | StatusChanged (s : VpnStatus)
  | ShowWindow.

Definition H (A : Type) : Type := State -> Exc A * State * list Effect.

#[global] Instance H_ret : MRet H := fun A a s => (Ok a, s, []).
#[global] Instance H_bind : MBind H := fun A B f c s =>
  match c s with
  | (Ok a, s1, t1) => let '(r, s2, t2) := f a s1 in (r, s2, (t1 ++ t2)%list)
  | (Throw e, s1, t1) => (Throw e, s1, t1)
  end.

(** A call of a method of [xray]. *)
Definition engine {A} (c : M A) : H A := fun s =>
  let '(r, m, t) := c (xray s) in
  (r, {| xray := m; vpnStatus := vpnStatus s; tray := tray s |}, map Engine t).

Definition set_vpnStatus (status : VpnStatus) : H unit := fun s =>
  (Ok tt, {| xray := xray s; vpnStatus := status; tray := tray s |}, []).

Definition set_tray (t : option Tray) : H unit := fun s =>
  (Ok tt, {| xray := xray s; vpnStatus := vpnStatus s; tray := t |}, []).

Definition send (ev : Effect) : H unit := fun s => (Ok tt, s, [ev]).

(** [updateTrayMenu()]: nothing without a tray; otherwise the menu is
    rebuilt for the current status. *)
Definition updateTrayMenu : H unit := fun s =>
  match tray s with
  | None => (Ok tt, s, [])
  | Some _ => set_tray (Some (Some (vpnStatus s))) s
  end.

(** [setVpnStatus(status)]; [window] tells whether [mainWindow] is there
    to be notified. *)
Definition setVpnStatus (window : bool) (status : VpnStatus) : H unit :=
  set_vpnStatus status;;
  updateTrayMenu;;
  (if window then send (StatusChanged status) else mret tt).

(** [result.ok] *)
Definition ok (r : Result) : bool :=
  match r with ok_true => true | ok_false _ => false end.

(** The handler of ['vpn:connect']. *)
Definition vpn_connect (window window' : bool) (e : ConnectEnv) (vlessUri : Uri) : H Result :=
  setVpnStatus window connecting;;
  result ← engine (connect e vlessUri);
  setVpnStatus window' (if ok result then connected else disconnected);;
  mret result.

(** The handler of ['vpn:disconnect']. *)
Definition vpn_disconnect (window : bool) (e : CleanupEnv) : H Result :=
  result ← engine (disconnect e);
  setVpnStatus window disconnected;;
  mret result.

(** The handlers of ['vpn:status'] and ['vpn:stats']. *)
Definition vpn_status : H (Status * option string) := engine getStatus.

Definition vpn_stats (e : StatsEnv) : H TrafficStats := engine (getTrafficStats e).

(** [createTray()]: the tray is made and its menu built. *)
Definition createTray : H unit :=
  set_tray (Some None);;
  updateTrayMenu.

(** A click on the second item of the tray menu: the [connectAction] that
    [updateTrayMenu] chose when it built the menu. *)
Definition connectAction (window : bool) (e : CleanupEnv) : H unit := fun s =>
  match tray s with
  | Some (Some connected) =>
      (engine (disconnect e);; setVpnStatus window disconnected) s
  | Some (Some _) => (if window then send ShowWindow else mret tt) s
  | _ => (Ok tt, s, [])
  end.

(** The process as it starts: [new XrayManager()] on the stored record,
    no tray yet. *)
Definition boot (f : StatsFile) : Exc State :=
  m ← constructor f;
  mret {| xray := m; vpnStatus := disconnected; tray := None |}.

Inductive Call :=
  | VpnConnect (window window' : bool) (e : ConnectEnv) (vlessUri : Uri)
  | VpnDisconnect (window : bool) (e : CleanupEnv)
  | TrayClick (window : bool) (e : CleanupEnv)
  | CreateTray.

Definition handle (c : Call) : H unit :=
  match c with
  | VpnConnect w w' e uri => vpn_connect w w' e uri;; mret tt
  | VpnDisconnect w e => vpn_disconnect w e;; mret tt
  | TrayClick w e => connectAction w e
  | CreateTray => createTray
  end.

Fixpoint handle_all (cs : list Call) : H unit :=
  match cs with
  | [] => mret tt
  | c :: rest => handle c;; handle_all rest
  end.

(** The status the tray should show for a status of the manager. *)
Definition shown (st : Status) : VpnStatus :=
  match st with
  | Connected => connected
  | _ => disconnected
  end.

(** [vpnStatus] tells the manager's status, and the tray menu, if there
    is one, was built for it. *)
Definition agrees (s : State) : Prop :=
  vpnStatus s = shown (status (xray s)) /\
  match tray s with
  | Some (Some built) => built = vpnStatus s
  | _ => True
  end.

End Main.

(** ** The window's connection hook *)

(** [useConnection] of [hooks/useConnection.js], with the other side of
    the bridge left open: [W] is whatever the IPC calls act on and [E] what
    they do there.  A call of the hook runs to its end before the next one
    starts, so the ['CONNECTING'] it shows meanwhile is passed through.
    The [state] that [connect] and [toggle] test is the one their closure
    was made with, the argument [seen]. *)
Module Hook.

Inductive ConnectionState := DISCONNECTED | CONNECTING | CONNECTED | ERROR.

(** What the hook returns to the screens; [None] is [null], or the
    [undefined] of a reply without the property. *)
Record View := {
  state : ConnectionState;
  ip : option string;
  errorMsg : option string;
}.

Definition initial : View :=
  {| state := DISCONNECTED; ip := None; errorMsg := None |}.

(** The object an IPC call resolves to. *)
Record Reply := {
  ok : bool;
  error : option string;
}.

(** What a call of the hook does outside: on the other side of the
    bridge, or the lookup of the public address. *)
Inductive Call (E : Type) :=
  | Remote (e : E)
  | IpLookup.

Arguments Remote {E} e.
Arguments IpLookup {E}.

(** [!vlessUri] fails: the URI is there and not empty. *)
Definition given (vlessUri : option string) : option string :=
  match vlessUri with
  | Some u => if Js.truthy u then Some u else None
  | None => None
  end.

(** [state === CONNECTING || state === CONNECTED] *)
Definition engaged (seen : ConnectionState) : bool :=
  match seen with
  | CONNECTING | CONNECTED => true
  | DISCONNECTED | ERROR => false
  end.

Section Bridge.

Context {W E : Type}.

(** An IPC call: it rejects or resolves, and acts on the other side. *)
Definition Ipc : Type := W -> Exc Reply * W * list E.

(** [connect(vlessUri)]; [ipify] is the outcome of the address lookup,
    [data.ip] or a failure. *)
Definition connect (seen : ConnectionState) (vlessUri : option string)
    (vpn_connect : string -> Ipc) (ipify : Exc (option string))
    (v : View) (w : W) : View * W * list (Call E) :=
  match given vlessUri with
  | None =>
      ({| state := ERROR; ip := ip v; errorMsg := Some "No server selected" |}, w, [])
  | Some uri =>
      if engaged seen then (v, w, [])
      else
        match vpn_connect uri w with
        | (Ok result, w', t) =>
            if ok result then
              ({| state := CONNECTED;
                  ip := match ipify with
                        | Ok data_ip => data_ip
                        | Throw _ => Some "Connected"
                        end;
                  errorMsg := None |},
               w', (map Remote t ++ [IpLookup])%list)
            else
              ({| state := ERROR; ip := None;
                  errorMsg := Some (Js.or_default (error result) "Connection failed") |},
               w', map Remote t)
        | (Throw message, w', t) =>
            ({| state := ERROR; ip := None;
                errorMsg := Some (Js.or_default (Some message) "Connection failed") |},
             w', map Remote t)
        end
  end.

(** [disconnect()]: a rejection of the call is swallowed. *)
Definition disconnect (vpn_disconnect : Ipc) (v : View) (w : W)
    : View * W * list (Call E) :=
  let '(_, w', t) := vpn_disconnect w in
  ({| state := DISCONNECTED; ip := None; errorMsg := None |}, w', map Remote t).

(** [toggle(vlessUri)] *)
Definition toggle (seen : ConnectionState) (vlessUri : option string)
    (vpn_connect : string -> Ipc) (vpn_disconnect : Ipc) (ipify : Exc (option string))
    (v : View) (w : W) : View * W * list (Call E) :=
  match seen with
  | CONNECTED => disconnect vpn_disconnect v w
  | DISCONNECTED | ERROR => connect seen vlessUri vpn_connect ipify v w
  | CONNECTING => (v, w, [])
  end.

(** [handleSwitchServer(newUri)] of [App.jsx]: [connection] is the hook's
    object of the render that made the handler, so the [connect] it calls
    after the [disconnect] still has that render's [state]. *)
Definition handleSwitchServer (seen : ConnectionState) (newUri : option string)
    (vpn_connect : string -> Ipc) (vpn_disconnect : Ipc) (ipify : Exc (option string))
    (v : View) (w : W) : View * W * list (Call E) :=
  let '(v1, w1, t1) := disconnect vpn_disconnect v w in
  let '(v2, w2, t2) := connect seen newUri vpn_connect ipify v1 w1 in
  (v2, w2, (t1 ++ t2)%list).

(** [handleSelectServer(serverId)] of the main screen, whose
    [connectionState] is the hook's [state] of the same render; [changed]
    is [serverId !== selectedServer] and [newUri] the URI found for the
    server. *)
Definition handleSelectServer (seen : ConnectionState) (changed : bool)
    (newUri : option string)
    (vpn_connect : string -> Ipc) (vpn_disconnect : Ipc) (ipify : Exc (option string))
    (v : View) (w : W) : View * W * list (Call E) :=
  match seen, changed, given newUri with
  | CONNECTED, true, Some uri =>
      handleSwitchServer seen (Some uri) vpn_connect vpn_disconnect ipify v w
  | _, _, _ => (v, w, [])
  end.

Inductive Op :=
  | Connect (seen : ConnectionState) (vlessUri : option string)
            (vpn_connect : string -> Ipc) (ipify : Exc (option string))
  | Disconnect (vpn_disconnect : Ipc)
  | Toggle (seen : ConnectionState) (vlessUri : option string)
           (vpn_connect : string -> Ipc) (vpn_disconnect : Ipc)
           (ipify : Exc (option string))
  | SelectServer (seen : ConnectionState) (changed : bool) (newUri : option string)
                 (vpn_connect : string -> Ipc) (vpn_disconnect : Ipc)
                 (ipify : Exc (option string)).

Definition apply (op : Op) : View -> W -> View * W * list (Call E) :=
  match op with
  | Connect seen uri c ipify => connect seen uri c ipify
  | Disconnect d => disconnect d
  | Toggle seen uri c d ipify => toggle seen uri c d ipify
  | SelectServer seen changed uri c d ipify =>
      handleSelectServer seen changed uri c d ipify
  end.


End Bridge.

Arguments Ipc : clear implicits.
Arguments Op : clear implicits.


End Hook.

(** ** The window on the main process *)

(** The hook with the bridge of [preload.js] behind it:
    [window.volyent.vpn.connect] invokes ['vpn:connect'], whose handler
    hands the text to the manager, and the object it returns comes back as
    the reply. *)
Section Stack.

(** [new URL(text)] as the main process computes it. *)
Variable url : string -> Uri.

(** The manager's result as the window receives it. *)
Definition reply_of (r : Result) : Hook.Reply :=
  match r with
  | ok_true => {| Hook.ok := true; Hook.error := None |}
  | ok_false e => {| Hook.ok := false; Hook.error := Some e |}
  end.

(** [ipcRenderer.invoke] of a handler: a handler that throws rejects the
    call. *)
Definition invoke (h : Main.H Result) : Hook.Ipc Main.State Main.Effect := fun s =>
  let '(r, s', t) := h s in
  (match r with Ok x => Ok (reply_of x) | Throw e => Throw e end, s', t).

Definition ipc_connect (window window' : bool) (e : ConnectEnv)
    : string -> Hook.Ipc Main.State Main.Effect :=
  fun vlessUri => invoke (Main.vpn_connect window window' e (url vlessUri)).

Definition ipc_disconnect (window : bool) (e : CleanupEnv)
    : Hook.Ipc Main.State Main.Effect :=
  invoke (Main.vpn_disconnect window e).




End Stack.

(** The URL parser on the one text that the samples use. *)
Definition sample_url (text : string) : Uri :=
  if String.eqb text "vless://uuid@example.com:443" then ValidUrl url_plain
  else InvalidUrl "Invalid URL".

(** The main process before any call: a manager without history, no tray. *)
Definition idle_main : Main.State :=
  {| Main.xray := fresh; Main.vpnStatus := Main.disconnected; Main.tray := None |}.

(** A child process is started among the effects of a call of the hook. *)
Definition starts_engine (c : Hook.Call Main.Effect) : bool :=
  match c with
  | Hook.Remote (Main.Engine (Spawn _)) => true
  | _ => false
  end.
(** * Properties *)

(** ** The parser and the config builder *)

Lemma parseVlessUri_valid (u : URL) :
  parseVlessUri (ValidUrl u) =
  match Js.decodeURIComponent (raw_label u) with
  | Some l =>
      Ok {| label := l;
            outbound :=
              {| tag := "proxy"; out_protocol := "vless";
                 vnext := Some [ {| address := hostname u;
                                    vnext_port := Js.parseInt (port u);
                                    users := [user_of (fromEntries (searchParams u))
                                                      (username u)] |} ];
                 streamSettings :=
                   Some (streamSettings_of (fromEntries (searchParams u))
                                           (hostname u)) |} |}
  | None => Throw "URI malformed"
  end.
Proof.
  unfold parseVlessUri, raw_label. simpl.
  destruct (Js.decodeURIComponent _); reflexivity.
Qed.

Lemma parseVlessUri_throws_iff (uri : Uri) :
  throws (parseVlessUri uri) = true <->
  match uri with
  | InvalidUrl _ => True
  | ValidUrl u => Js.decodeURIComponent (raw_label u) = None
  end.
Proof.
  destruct uri as [e | u].
  - simpl. tauto.
  - rewrite parseVlessUri_valid.
    destruct (Js.decodeURIComponent (raw_label u)); simpl; split; congruence.
Qed.

Lemma generateConfig_of_parse (uri : Uri) :
  generateConfig uri =
  match parseVlessUri uri with
  | Ok d => Ok (config_around (outbound d))
  | Throw e => Throw e
  end.
Proof. unfold generateConfig. destruct (parseVlessUri uri); reflexivity. Qed.

(** *** Omitted port *)

(** For every URL without a port, the manager's parser applies no default
    and does not fail because of the port: it fails exactly when the label
    cannot be percent-decoded, and otherwise yields a descriptor whose port
    is [NaN]. *)
Lemma omitted_port_is_NaN (u : URL) :
  port u = "" ->
  match parseVlessUri (ValidUrl u) with
  | Ok d => descriptor_ports d = [Js.NaN]
  | Throw e => e = "URI malformed" /\ Js.decodeURIComponent (raw_label u) = None
  end.
Proof.
  intros Hport. rewrite parseVlessUri_valid.
  destruct (Js.decodeURIComponent (raw_label u)) as [l|]; [|split; reflexivity].
  unfold descriptor_ports; simpl. rewrite Hport. reflexivity.
Qed.

(** The renderer's parser turns down every text that does not start with
    [vless://]. *)
Lemma renderer_checks_scheme (uri : string) :
  Js.startsWith uri "vless://" = false -> Renderer.parseVlessUri uri = None.
Proof. intros H. unfold Renderer.parseVlessUri. rewrite H. reflexivity. Qed.

(** C5: the code breaks the claim at
    [vless://uuid@example.com?security=tls#Home], which has the expected
    scheme and no port: the manager's parser does not fail and does not
    default the port, it returns a descriptor whose port is [NaN]; the
    renderer's parser gives the same text the port 443. *)
Theorem omitted_port_yields_NaN :
  protocol url_no_port = "vless:" /\ port url_no_port = "" /\
  (exists d, parseVlessUri (ValidUrl url_no_port) = Ok d /\
             descriptor_ports d = [Js.NaN] /\
             descriptor_ports d <> [Js.Num 443]) /\
  (exists s, Renderer.parseVlessUri text_no_port = Some s /\
             Renderer.port s = Js.Num 443).
Proof.
  split; [reflexivity|]. split; [reflexivity|]. split.
  - eexists. repeat split. discriminate.
  - eexists. split; reflexivity.
Qed.

(** *** Stealth parameters *)

(** C6, as stated, fails: [vless://uuid@example.com:443?security=reality]
    has no [fp] parameter, and the fingerprint of the descriptor is
    ['chrome'], not the empty string. *)
Lemma reality_fingerprint_counterexample :
  fromEntries (searchParams url_reality_bare) !! "security" = Some "reality" /\
  fromEntries (searchParams url_reality_bare) !! "fp" = None /\
  exists d rs, parseVlessUri (ValidUrl url_reality_bare) = Ok d /\
               descriptor_reality d = Some rs /\
               fingerprint rs = "chrome" /\ fingerprint rs <> "".
Proof.
  repeat split. do 2 eexists. repeat split. discriminate.
Qed.

Lemma or_default_nonempty (x : option string) (d : string) :
  d <> "" -> Js.or_default x d <> "".
Proof. intros Hd. destruct x as [[|c s]|]; simpl; congruence. Qed.

(** C6, amended: for every URL whose [security] parameter is [reality],
    parsing succeeds whenever the label can be percent-decoded, whatever
    stealth parameters are missing; a missing server name, public key,
    short id or spider path becomes the empty string, and a missing
    fingerprint becomes ['chrome']. *)
Theorem reality_defaults (u : URL) :
  fromEntries (searchParams u) !! "security" = Some "reality" ->
  Js.decodeURIComponent (raw_label u) <> None ->
  exists d rs,
    parseVlessUri (ValidUrl u) = Ok d /\
    descriptor_reality d = Some rs /\
    (fromEntries (searchParams u) !! "sni" = None -> serverName rs = "") /\
    (fromEntries (searchParams u) !! "fp" = None -> fingerprint rs = "chrome") /\
    (fromEntries (searchParams u) !! "pbk" = None -> publicKey rs = "") /\
    (fromEntries (searchParams u) !! "sid" = None -> shortId rs = "") /\
    (fromEntries (searchParams u) !! "spx" = None -> spiderX rs = "").
Proof.
  intros Hsec Hlabel. rewrite parseVlessUri_valid.
  destruct (Js.decodeURIComponent (raw_label u)) as [l|]; [|congruence].
  eexists. eexists. split; [reflexivity|].
  unfold descriptor_reality, streamSettings_of, realitySettings_of, param_is; simpl.
  rewrite Hsec. simpl. split; [reflexivity|].
  repeat split; intros ->; reflexivity.
Qed.

Lemma reality_defaults_witness :
  fromEntries (searchParams url_reality_bare) !! "security" = Some "reality" /\
  Js.decodeURIComponent (raw_label url_reality_bare) <> None /\
  exists d rs,
    parseVlessUri (ValidUrl url_reality_bare) = Ok d /\
    descriptor_reality d = Some rs /\
    serverName rs = "" /\ fingerprint rs = "chrome" /\
    publicKey rs = "" /\ shortId rs = "" /\ spiderX rs = "".
Proof.
  assert (H1 : fromEntries (searchParams url_reality_bare) !! "security" = Some "reality")
    by reflexivity.
  assert (H2 : Js.decodeURIComponent (raw_label url_reality_bare) <> None)
    by discriminate.
  split; [exact H1|]. split; [exact H2|].
  destruct (reality_defaults url_reality_bare H1 H2)
    as (d & rs & Hp & Hr & Hsni & Hfp & Hpbk & Hsid & Hspx).
  exists d, rs. repeat split; auto.
Defined.

(** *** Flow and encryption of the user entry *)

(** C7, as stated, fails: [vless://uuid@example.com:443] sets no
    [encryption] parameter, and the user entry of the proxy outbound still
    carries an [encryption] property, with the value ['none']. *)
Lemma encryption_counterexample :
  fromEntries (searchParams url_plain) !! "encryption" = None /\
  exists d c usr,
    parseVlessUri (ValidUrl url_plain) = Ok d /\
    generateConfig (ValidUrl url_plain) = Ok c /\
    head (outbounds c) = Some (outbound d) /\
    descriptor_users d = [usr] /\
    encryption usr = Some "none" /\ encryption usr <> None.
Proof.
  split; [reflexivity|]. do 3 eexists. repeat split. discriminate.
Qed.

(** C7, amended: when a URL parses to a descriptor, building the config
    from it does not throw and puts the descriptor's outbound first; its
    single user entry has a [flow] property exactly when the [flow]
    parameter is set and not empty, always has an [encryption] property,
    equal to the parameter when that is set and not empty and to ['none']
    otherwise, and neither property is ever the empty string. *)
Theorem build_user_fields (u : URL) (d : Descriptor) :
  parseVlessUri (ValidUrl u) = Ok d ->
  (exists c, generateConfig (ValidUrl u) = Ok c /\
             outbounds c = [outbound d; plain_outbound "direct" "freedom";
                            plain_outbound "block" "blackhole"]) /\
  exists usr,
    descriptor_users d = [usr] /\
    (forall f, flow usr = Some f <->
               fromEntries (searchParams u) !! "flow" = Some f /\ f <> "") /\
    (forall x, fromEntries (searchParams u) !! "encryption" = Some x -> x <> "" ->
               encryption usr = Some x) /\
    (fromEntries (searchParams u) !! "encryption" = None \/
     fromEntries (searchParams u) !! "encryption" = Some "" ->
     encryption usr = Some "none") /\
    flow usr <> Some "" /\ encryption usr <> Some "" /\ encryption usr <> None.
Proof.
  intros Hparse. split.
  { rewrite generateConfig_of_parse, Hparse. eexists. split; reflexivity. }
  rewrite parseVlessUri_valid in Hparse.
  destruct (Js.decodeURIComponent (raw_label u)) as [l|]; [|discriminate].
  injection Hparse as <-.
  eexists. split; [reflexivity|]. unfold user_of; simpl.
  set (params := fromEntries (searchParams u)).
  split; [|split; [|split; [|split; [|split]]]].
  - intros f. destruct (params !! "flow") as [[|c s]|]; simpl;
      (split; [intros H | intros [H1 H2]]); try congruence.
    split; congruence.
  - intros x -> Hx. destruct x; simpl; congruence.
  - intros [-> | ->]; reflexivity.
  - destruct (params !! "flow") as [[|c s]|]; simpl; congruence.
  - intros H. injection H as H. revert H. apply or_default_nonempty. discriminate.
  - discriminate.
Qed.

Lemma build_user_fields_witness :
  exists d usr,
    parseVlessUri (ValidUrl url_plain) = Ok d /\
    descriptor_users d = [usr] /\ flow usr <> Some "" /\
    encryption usr = Some "none".
Proof.
  eexists. 
  destruct (build_user_fields url_plain _ eq_refl)
    as (_ & usr & Hu & _ & _ & Henc & Hflow & _).
  exists usr. repeat split; [exact Hu | exact Hflow |].
  apply Henc. left. reflexivity.
Defined.

(** ** Running the manager's methods *)

Ltac unfold_M :=
  unfold mbind, M_bind, mret, M_ret, try_catch, host, emit, throw, get, put, lift,
    set_process, set_status, set_error, set_activeNetworkService,
    set_cumulativeStats in *.

Lemma queryStats_run p pat reply m :
  queryStats p pat reply m = (Ok (query_sum reply), m, [StatsQuery p pat]).
Proof. unfold queryStats. unfold_M. destruct reply; reflexivity. Qed.

Lemma _saveStats_run fails m :
  _saveStats fails m = (Ok tt, m, [WriteStats (cumulativeStats m)]).
Proof. unfold _saveStats. unfold_M. destruct fails; reflexivity. Qed.

Lemma getXrayPath_run b m :
  getXrayPath b m =
  (match locate b with Some p => Ok p | None => Throw "xray binary not found" end,
   m, []).
Proof.
  unfold getXrayPath, locate. unfold_M.
  destruct (prod_exists b), (dev_exists b); reflexivity.
Qed.

Lemma _saveCumulativeFromSession_run e m :
  _saveCumulativeFromSession e m = (Ok tt, fold_state e m, fold_trace e m).
Proof.
  unfold _saveCumulativeFromSession, fold_state, fold_trace.
  unfold try_catch, mbind, M_bind. rewrite getXrayPath_run.
  destruct (locate (fold_bin e)) as [p|]; [|reflexivity].
  rewrite queryStats_run. unfold_M. simpl. rewrite queryStats_run. simpl.
  rewrite _saveStats_run. reflexivity.
Qed.

Lemma unsetSystemProxy_run fails m :
  unsetSystemProxy fails m = (Ok tt, m, off_trace fails (off_service m)).
Proof.
  unfold unsetSystemProxy, networksetup, off_trace, off_service. unfold_M. simpl.
  destruct (fails (SetState Socks false)); simpl; [reflexivity|].
  destruct (fails (SetState Web false)); simpl; [reflexivity|].
  destruct (fails (SetState SecureWeb false)); reflexivity.
Qed.

Lemma bind_run {A B} (c : M A) (f : A -> M B) m :
  (c ≫= f) m =
  match c m with
  | (Ok a, m1, t1) => let '(r, m2, t2) := f a m1 in (r, m2, (t1 ++ t2)%list)
  | (Throw e, m1, t1) => (Throw e, m1, t1)
  end.
Proof. reflexivity. Qed.

Lemma kill_run p fails m :
  try_catch (host (Kill p) fails) (fun _ => mret tt) m = (Ok tt, m, [Kill p]).
Proof. unfold_M. destruct fails; reflexivity. Qed.

Lemma unlink_run fails m :
  try_catch (host UnlinkConfig fails) (fun _ => mret tt) m = (Ok tt, m, [UnlinkConfig]).
Proof. unfold_M. destruct fails; reflexivity. Qed.

Lemma fold_state_process e m : process (fold_state e m) = process m.
Proof. unfold fold_state. destruct (locate _); reflexivity. Qed.

Lemma fold_state_service e m : off_service (fold_state e m) = off_service m.
Proof. unfold fold_state. destruct (locate _); reflexivity. Qed.

Lemma cleanup_run e m :
  cleanup e m = (Ok tt, cleanup_state e m, cleanup_trace e m).
Proof.
  unfold cleanup, cleanup_state, cleanup_trace.
  rewrite bind_run. unfold get at 1. rewrite bind_run.
  assert (Hfold : (if in_session m then _saveCumulativeFromSession (fold_env e)
                   else mret tt) m =
                  (Ok tt, if in_session m then fold_state (fold_env e) m else m,
                   if in_session m then fold_trace (fold_env e) m else [])).
  { destruct (in_session m); [apply _saveCumulativeFromSession_run | reflexivity]. }
  rewrite Hfold. clear Hfold.
  set (m1 := if in_session m then fold_state (fold_env e) m else m).
  assert (Hp : process m1 = process m).
  { subst m1. destruct (in_session m); [apply fold_state_process | reflexivity]. }
  assert (Hsvc : off_service m1 = off_service m).
  { subst m1. destruct (in_session m); [apply fold_state_service | reflexivity]. }
  rewrite bind_run. unfold get at 1. rewrite bind_run. rewrite <- Hp, <- Hsvc.
  destruct (process m1) as [p|].
  - rewrite bind_run, kill_run. unfold set_process. rewrite bind_run. unfold get at 1, put at 1.
    rewrite bind_run, unsetSystemProxy_run, unlink_run. reflexivity.
  - unfold mret at 1, M_ret at 1.
    rewrite bind_run, unsetSystemProxy_run, unlink_run. reflexivity.
Qed.

Lemma disconnect_run e m :
  disconnect e m =
  (Ok ok_true, with_status (cleanup_state e m) Disconnected None, cleanup_trace e m).
Proof.
  unfold disconnect. rewrite bind_run, cleanup_run. unfold_M. simpl.
  rewrite app_nil_r. reflexivity.
Qed.

Lemma setSystemProxy_run e m :
  let svc := getActiveNetworkService (service_env e) in
  setSystemProxy e m =
  (Ok (snd (run_cmds (on_fails e) svc on_cmds)), with_service m svc,
   fst (run_cmds (on_fails e) svc on_cmds)).
Proof.
  intros svc. unfold setSystemProxy, networksetup, on_cmds. unfold_M. simpl.
  fold svc.
  repeat match goal with
         | |- context [on_fails e ?c] => destruct (on_fails e c); simpl; try reflexivity
         end.
Qed.

Lemma wait_ready_run buf evs m :
  wait_ready buf evs m = (settle (status m) buf evs, m, []).
Proof.
  revert buf. induction evs as [|ev rest IH]; intros buf; [reflexivity|].
  destruct ev; simpl.
  - destruct (Js.includes data "started" || Js.includes data "listening");
      [reflexivity | apply IH].
  - apply IH.
  - reflexivity.
  - rewrite bind_run. unfold get at 1.
    destruct (nonzero code && bool_decide (status m = Connecting)).
    + reflexivity.
    + rewrite IH. destruct (settle (status m) buf rest); reflexivity.
Qed.

Lemma getStatus_run m : getStatus m = (Ok (status m, error m), m, []).
Proof. reflexivity. Qed.

Lemma set_status_run s m : set_status s m = (Ok tt, with_status m s (error m), []).
Proof. reflexivity. Qed.

Lemma set_error_run x m : set_error x m = (Ok tt, with_status m (status m) x, []).
Proof. reflexivity. Qed.

Lemma set_process_run p m : set_process p m = (Ok tt, with_process m p, []).
Proof. reflexivity. Qed.

Lemma host_run ev fails m :
  host ev fails m = (match fails with Some e => Throw e | None => Ok tt end, m, [ev]).
Proof. unfold_M. destruct fails; reflexivity. Qed.

Lemma spawn_run p fails m :
  spawn p fails m =
  match fails with
  | Some e => (Throw e, m, [])
  | None => (Ok {| binary := p |}, m, [Spawn p])
  end.
Proof. unfold spawn. destruct fails; reflexivity. Qed.

Lemma connect_run e uri m :
  connect e uri m =
  (Ok (connect_result e uri), connect_state e uri m, connect_trace e uri m).
Proof.
  unfold connect, connect_result, connect_state, connect_trace, pre_state, pre_trace.
  rewrite bind_run. unfold get at 1. rewrite bind_run.
  assert (Hpre : (if bool_decide (is_Some (process m))
                  then disconnect (before e);; mret tt else mret tt) m =
                 (Ok tt,
                  if bool_decide (is_Some (process m))
                  then with_status (cleanup_state (before e) m) Disconnected None
                  else m,
                  if bool_decide (is_Some (process m))
                  then cleanup_trace (before e) m else [])).
  { destruct (bool_decide (is_Some (process m))); [|reflexivity].
    rewrite bind_run, disconnect_run. unfold_M. simpl. rewrite app_nil_r. reflexivity. }
  rewrite Hpre. clear Hpre.
  set (ma := if bool_decide (is_Some (process m)) then _ else m).
  set (ta := if bool_decide (is_Some (process m)) then _ else []).
  rewrite bind_run, set_status_run, bind_run, set_error_run.
  change (with_status (with_status ma Connecting (error ma)) _ None)
    with (with_status ma Connecting None).
  set (mb := with_status ma Connecting None).
  unfold try_catch at 1. rewrite bind_run. unfold lift at 1. unfold attempt.
  assert (Hfail : forall msg mx,
             (set_status Error;; set_error (Some msg);; cleanup (after e);;
              mret (ok_false msg)) mx =
             (Ok (ok_false msg),
              cleanup_state (after e) (with_status mx Error (Some msg)),
              cleanup_trace (after e) (with_status mx Error (Some msg)))).
  { intros msg mx.
    rewrite bind_run, set_status_run, bind_run, set_error_run, bind_run, cleanup_run.
    unfold mret, M_ret. cbv beta iota zeta. rewrite !app_nil_r. reflexivity. }
  destruct (generateConfig uri) as [config|msg].
  2:{ rewrite Hfail. cbv beta iota zeta. reflexivity. }
  rewrite bind_run, host_run.
  destruct (write_fails e) as [msg|].
  { rewrite Hfail. cbv beta iota zeta. reflexivity. }
  rewrite bind_run, getXrayPath_run.
  destruct (locate (bin_env e)) as [p|].
  2:{ rewrite Hfail. cbv beta iota zeta. reflexivity. }
  rewrite bind_run, spawn_run.
  destruct (spawn_fails e) as [msg|].
  { rewrite Hfail. cbv beta iota zeta. reflexivity. }
  rewrite bind_run, set_process_run, bind_run, wait_ready_run.
  change (status (with_process mb _)) with Connecting.
  destruct (settle Connecting "" (proc_events e)) as [[]|msg].
  2:{ rewrite Hfail. cbv beta iota zeta. reflexivity. }
  rewrite bind_run, setSystemProxy_run, bind_run, set_status_run.
  unfold mret, M_ret. cbv beta iota zeta. rewrite !app_nil_r. reflexivity.
Qed.

(** The service is the hardware port listed above the device of the
    default route, and ['Wi-Fi'] whenever a command fails. *)
Example service_resolution :
  getActiveNetworkService wifi = "Wi-Fi" /\
  getActiveNetworkService wired = "Thunderbolt Ethernet" /\
  getActiveNetworkService {| route_out := Throw "Command failed";
                             hardwareports_out := hardwareports_out wired |} = "Wi-Fi" /\
  getActiveNetworkService {| route_out := Ok ""; hardwareports_out := Throw "" |} = "Wi-Fi".
Proof. repeat split. Qed.

(** ** What a teardown can and cannot do *)

Lemma off_trace_no_spawn fails svc : existsb is_spawn (off_trace fails svc) = false.
Proof.
  unfold off_trace. destruct (fails (SetState Socks false)); [reflexivity|].
  destruct (fails (SetState Web false)); reflexivity.
Qed.

Lemma off_trace_no_enable fails svc : existsb enables_proxy (off_trace fails svc) = false.
Proof.
  unfold off_trace. destruct (fails (SetState Socks false)); [reflexivity|].
  destruct (fails (SetState Web false)); reflexivity.
Qed.

Lemma off_trace_idle fails svc : forallb is_idle_teardown (off_trace fails svc) = true.
Proof.
  unfold off_trace. destruct (fails (SetState Socks false)); [reflexivity|].
  destruct (fails (SetState Web false)); reflexivity.
Qed.


Lemma cleanup_trace_no_spawn e m : existsb is_spawn (cleanup_trace e m) = false.
Proof.
  unfold cleanup_trace, fold_trace.
  rewrite !existsb_app, off_trace_no_spawn.
  destruct (in_session m), (locate (fold_bin (fold_env e))), (process m); reflexivity.
Qed.

Lemma cleanup_trace_no_enable e m : existsb enables_proxy (cleanup_trace e m) = false.
Proof.
  unfold cleanup_trace, fold_trace.
  rewrite !existsb_app, off_trace_no_enable.
  destruct (in_session m), (locate (fold_bin (fold_env e))), (process m); reflexivity.
Qed.


Lemma cleanup_state_process e m : process (cleanup_state e m) = None.
Proof.
  unfold cleanup_state.
  destruct (process (if in_session m then _ else m)) eqn:H; [reflexivity | exact H].
Qed.

Lemma cleanup_state_fields e m :
  status (cleanup_state e m) = status m /\
  error (cleanup_state e m) = error m /\
  activeNetworkService (cleanup_state e m) = activeNetworkService m.
Proof.
  unfold cleanup_state, fold_state.
  destruct (in_session m), (locate (fold_bin (fold_env e)));
    simpl; destruct (process m); simpl; auto.
Qed.

Lemma in_session_error m e : in_session (with_status m Error e) = false.
Proof. unfold in_session. simpl. apply andb_false_r. Qed.

Lemma pre_trace_no_spawn e m : existsb is_spawn (pre_trace e m) = false.
Proof.
  unfold pre_trace. destruct (bool_decide _); [apply cleanup_trace_no_spawn | reflexivity].
Qed.

Lemma pre_trace_no_enable e m : existsb enables_proxy (pre_trace e m) = false.
Proof.
  unfold pre_trace. destruct (bool_decide _); [apply cleanup_trace_no_enable | reflexivity].
Qed.

Lemma pre_state_process e m : process (pre_state e m) = None.
Proof.
  unfold pre_state. simpl. destruct (bool_decide (is_Some (process m))) eqn:H.
  - simpl. apply cleanup_state_process.
  - apply bool_decide_eq_false in H. destruct (process m); [|reflexivity].
    exfalso. apply H. eauto.
Qed.

(** ** Connecting with a URI that does not parse *)



(** The manager's parser never reads the scheme. *)
Lemma parseVlessUri_ignores_protocol (u : URL) (p : string) :
  parseVlessUri (ValidUrl (with_protocol u p)) = parseVlessUri (ValidUrl u).
Proof. rewrite !parseVlessUri_valid. reflexivity. Qed.



(** ** Failure of [connect] *)

Lemma spawned_are_killed_app t1 t2 :
  existsb is_spawn t1 = false ->
  spawned_are_killed (t1 ++ t2) = spawned_are_killed t2.
Proof.
  induction t1 as [|ev t1 IH]; [reflexivity|].
  destruct ev; simpl; try discriminate; exact IH.
Qed.

Lemma spawned_are_killed_none t :
  existsb is_spawn t = false -> spawned_are_killed t = true.
Proof.
  intros H. rewrite <- (app_nil_r t), spawned_are_killed_app; [reflexivity | exact H].
Qed.

Lemma cleanup_trace_split e m :
  exists t0,
    cleanup_trace e m = (t0 ++ off_trace (off_fails e) (off_service m) ++ [UnlinkConfig])%list.
Proof.
  unfold cleanup_trace. eexists. rewrite app_assoc. reflexivity.
Qed.

Lemma attempt_failed e uri msg calls spawned :
  attempt e uri = Failed msg calls spawned ->
  (spawned = None /\ (calls = [] \/ exists c, calls = [WriteConfig c])) \/
  (exists c p, spawned = Some p /\ calls = [WriteConfig c; Spawn p]).
Proof.
  unfold attempt. intros Hatt.
  destruct (generateConfig uri); [|injection Hatt as <- <- <-; auto].
  destruct (write_fails e); [injection Hatt as <- <- <-; eauto|].
  destruct (locate (bin_env e)); [|injection Hatt as <- <- <-; eauto].
  destruct (spawn_fails e); [injection Hatt as <- <- <-; eauto|].
  destruct (settle _ _ _); [discriminate|].
  injection Hatt as <- <- <-. right. eauto.
Qed.

(** C2: [connect] never throws; and whenever it returns an error result,
    the manager is in state [Error] with that message and holds no
    process, every child process that was started has been sent a kill, no
    command enabled a proxy, and the trace ends with the commands of
    [unsetSystemProxy] followed by the removal of the config file; when
    none of these commands fails, all three proxies are turned off. *)
Theorem connect_failure_cleans_up (e : ConnectEnv) (uri : Uri) (m : Manager)
    (r : Exc Result) (m' : Manager) (t : list Event) :
  connect e uri m = (r, m', t) ->
  (exists res, r = Ok res) /\
  forall msg, r = Ok (ok_false msg) ->
    status m' = Error /\ error m' = Some msg /\ process m' = None /\
    spawned_are_killed t = true /\
    existsb enables_proxy t = false /\
    exists t0 t_off,
      t = (t0 ++ t_off ++ [UnlinkConfig])%list /\
      unsetSystemProxy (off_fails (after e)) m' = (Ok tt, m', t_off) /\
      ((forall c, off_fails (after e) c = None) ->
       t_off = List.map (fun k => Networksetup (SetState k false) (off_service m'))
                        [Socks; Web; SecureWeb]).
Proof.
  rewrite connect_run. intros H. injection H as <- <- <-.
  split; [eauto|]. intros msg Hres. injection Hres as Hres.
  unfold connect_result in Hres. unfold connect_state, connect_trace.
  destruct (attempt e uri) as [config p | msg' calls spawned] eqn:Hatt; [discriminate|].
  injection Hres as ->.
  set (mx := with_status _ Error (Some msg)).
  destruct (cleanup_state_fields (after e) mx) as (Hst & Herr & Hsvc).
  rewrite Hst, Herr, cleanup_state_process.
  split; [reflexivity|]. split; [reflexivity|]. split; [reflexivity|].
  assert (Hcalls : (spawned = None /\ existsb is_spawn calls = false) \/
                   (exists c p, spawned = Some p /\ calls = [WriteConfig c; Spawn p])).
  { destruct (attempt_failed _ _ _ _ _ Hatt) as [[-> [-> | [c ->]]] | H]; auto. }
  assert (Hen : existsb enables_proxy calls = false).
  { destruct (attempt_failed _ _ _ _ _ Hatt)
      as [[_ [-> | [c ->]]] | (c & p & _ & ->)]; reflexivity. }
  split; [|split].
  - rewrite spawned_are_killed_app by apply pre_trace_no_spawn.
    destruct Hcalls as [[-> Hc] | (c & p & -> & ->)].
    + rewrite spawned_are_killed_app by exact Hc.
      apply spawned_are_killed_none, cleanup_trace_no_spawn.
    + subst mx. cbn [app spawned_are_killed]. unfold cleanup_trace.
      rewrite in_session_error. cbn [process with_status with_process app existsb is_kill_of binary].
      rewrite bool_decide_eq_true_2 by reflexivity. cbn [orb andb].
      apply spawned_are_killed_none. cbn [existsb is_spawn orb].
      rewrite existsb_app, off_trace_no_spawn. reflexivity.
  - rewrite !existsb_app, pre_trace_no_enable, Hen, cleanup_trace_no_enable. reflexivity.
  - destruct (cleanup_trace_split (after e) mx) as [t0 Ht0].
    exists (pre_trace e m ++ calls ++ t0)%list, (off_trace (off_fails (after e)) (off_service mx)).
    assert (Hoff : off_service (cleanup_state (after e) mx) = off_service mx)
      by (unfold off_service; rewrite Hsvc; reflexivity).
    split; [|split].
    + rewrite Ht0, <- !app_assoc. reflexivity.
    + rewrite unsetSystemProxy_run, Hoff. reflexivity.
    + intros Hnone. rewrite Hoff. unfold off_trace. rewrite !Hnone. reflexivity.
Qed.

Lemma connect_failure_cleans_up_witness :
  exists m' t,
    connect (calm_connect [Stderr "Failed to start: app/proxyman: bad port"; Exit (Some 23)])
            (ValidUrl url_no_port) fresh
      = (Ok (ok_false "xray error: app/proxyman: bad port"), m', t) /\
    status m' = Error /\ process m' = None /\
    spawned_are_killed t = true /\ existsb enables_proxy t = false.
Proof.
  do 2 eexists. split; [vm_compute; reflexivity|].
  match goal with
  | |- status ?m' = _ /\ _ /\ spawned_are_killed ?t = _ /\ _ =>
      destruct (connect_failure_cleans_up
                  (calm_connect [Stderr "Failed to start: app/proxyman: bad port";
                                 Exit (Some 23)])
                  (ValidUrl url_no_port) fresh
                  (Ok (ok_false "xray error: app/proxyman: bad port")) m' t)
        as [_ H]; [vm_compute; reflexivity|]
  end.
  destruct (H _ eq_refl) as (H1 & _ & H3 & H4 & H5 & _).
  auto.
Defined.

(** Each step of [connect] can fail, and each failure comes back as an
    error result with the message of that step. *)
Example failing_steps :
  fst (fst (connect (calm_connect []) (InvalidUrl "Invalid URL") fresh))
    = Ok (ok_false "Invalid URL") /\
  fst (fst (connect (calm_connect []) (ValidUrl url_bad_label) fresh))
    = Ok (ok_false "URI malformed") /\
  fst (fst (connect (host_env (Some "ENOSPC: no space left on device") engine_present None [])
                    (ValidUrl url_plain) fresh))
    = Ok (ok_false "ENOSPC: no space left on device") /\
  fst (fst (connect (host_env None engine_missing None []) (ValidUrl url_plain) fresh))
    = Ok (ok_false "xray binary not found") /\
  fst (fst (connect (host_env None engine_present (Some "spawn EAGAIN") [])
                    (ValidUrl url_plain) fresh))
    = Ok (ok_false "spawn EAGAIN") /\
  fst (fst (connect (calm_connect [Stdout "Xray 1.8.4"; Exit None]) (ValidUrl url_plain) busy))
    = Ok (ok_false "xray error: Xray 1.8.4").
Proof. repeat split. Qed.

(** ** Disconnecting *)

Lemma cleanup_idle e m :
  process m = None ->
  cleanup_state e m = m /\
  cleanup_trace e m = (off_trace (off_fails e) (off_service m) ++ [UnlinkConfig])%list.
Proof.
  intros Hp. unfold cleanup_state, cleanup_trace, in_session. rewrite Hp.
  rewrite bool_decide_eq_false_2 by (intros [x Hx]; discriminate).
  simpl. rewrite Hp. auto.
Qed.

(** C3: in every state and whatever the host answers, [disconnect] does
    not throw and returns [{ ok: true }], leaving the manager in state
    [Disconnected] with no error and no process; a second [disconnect]
    returns the same result and leaves that state as it is, and all it does
    to the host is to repeat the proxy-off commands and the removal of the
    config file. *)
Theorem disconnect_idempotent (e1 e2 : CleanupEnv) (m : Manager) :
  exists m1 t1 t2,
    disconnect e1 m = (Ok ok_true, m1, t1) /\
    status m1 = Disconnected /\ error m1 = None /\ process m1 = None /\
    disconnect e2 m1 = (Ok ok_true, m1, t2) /\
    forallb is_idle_teardown t2 = true.
Proof.
  rewrite disconnect_run.
  exists (with_status (cleanup_state e1 m) Disconnected None), (cleanup_trace e1 m).
  rewrite disconnect_run.
  assert (Hp : process (with_status (cleanup_state e1 m) Disconnected None) = None)
    by apply cleanup_state_process.
  destruct (cleanup_idle e2 _ Hp) as [-> ->].
  eexists. repeat split.
  - exact Hp.
  - rewrite forallb_app, off_trace_idle. reflexivity.
Qed.

(** ** Folding the session counters *)

Lemma value_sum_nonneg vs acc :
  0 <= acc -> Forall (fun v => 0 <= value_of v) vs ->
  0 <= fold_left (fun sum v => sum + value_of v) vs acc.
Proof.
  revert acc. induction vs as [|v vs IH]; intros acc Hacc Hall; simpl; [exact Hacc|].
  inversion Hall; subst. apply IH; [lia | assumption].
Qed.

Lemma query_sum_nonneg r : reply_nonneg r -> 0 <= query_sum r.
Proof.
  destruct r; simpl; intros H; try lia.
  apply value_sum_nonneg; [lia | exact H].
Qed.

Lemma engine_found_locate e : engine_found e -> exists p, locate (fold_bin e) = Some p.
Proof.
  unfold engine_found, locate.
  destruct (prod_exists (fold_bin e)), (dev_exists (fold_bin e)); simpl; eauto; discriminate.
Qed.

Lemma ledger_app t1 t2 s s1 :
  ledger s t1 = Some s1 ->
  ledger s (t1 ++ t2) = ledger s1 t2.
Proof.
  revert s. induction t1 as [|ev t1 IH]; intros s H.
  - simpl in H. injection H as ->. reflexivity.
  - destruct ev; cbn [ledger app] in *; try (apply IH; exact H).
    destruct t1 as [|[] [|[] t1']]; try discriminate.
    cbn [app]. destruct (bool_decide _); [|discriminate].
    apply IH, H.
Qed.

(** A fold that is not written, or not followed by the kill, does not
    pass. *)
Example ledger_rejects :
  ledger (cumulativeStats fresh) [Folded 1 2; Kill {| binary := ProdPath |}] = None /\
  ledger (cumulativeStats fresh)
         [Folded 1 2; WriteStats {| uplink := 0; downlink := 0 |};
          Kill {| binary := ProdPath |}] = None /\
  ledger (cumulativeStats fresh)
         [Folded 1 2; WriteStats {| uplink := 1; downlink := 2 |}; UnlinkConfig] = None /\
  ledger (cumulativeStats fresh)
         [Folded 1 2; WriteStats {| uplink := 1; downlink := 2 |};
          Kill {| binary := ProdPath |}] = Some {| uplink := 1; downlink := 2 |}.
Proof. repeat split. Qed.

Lemma count_folds_app t1 t2 :
  count_folds (t1 ++ t2) = (count_folds t1 + count_folds t2)%nat.
Proof. unfold count_folds. rewrite List.filter_app, length_app. reflexivity. Qed.

Lemma count_folds_cons ev t :
  count_folds (ev :: t) = ((if is_fold ev then 1 else 0) + count_folds t)%nat.
Proof. unfold count_folds. simpl. destruct (is_fold ev); reflexivity. Qed.

Lemma ledger_no_fold t s : count_folds t = 0%nat -> ledger s t = Some s.
Proof.
  unfold count_folds. induction t as [|ev t IH]; [reflexivity|].
  destruct ev; simpl; try exact IH. discriminate.
Qed.

Lemma off_trace_folds fails svc :
  count_folds (off_trace fails svc ++ [UnlinkConfig]) = 0%nat.
Proof.
  unfold off_trace. destruct (fails (SetState Socks false)); [reflexivity|].
  destruct (fails (SetState Web false)); reflexivity.
Qed.

Lemma run_cmds_folds fails svc cmds : count_folds (fst (run_cmds fails svc cmds)) = 0%nat.
Proof.
  induction cmds as [|c cmds IH]; [reflexivity|]. simpl.
  destruct (fails c); [reflexivity|].
  destruct (run_cmds fails svc cmds) as [t ok]. exact IH.
Qed.

Lemma in_session_process m : in_session m = true -> exists p, process m = Some p.
Proof.
  unfold in_session. intros H. apply andb_true_iff in H as [H _].
  apply bool_decide_eq_true in H. destruct H as [p Hp]. eauto.
Qed.

Lemma live_no_process m : process m = None -> live m = 0%nat.
Proof.
  intros Hp. unfold live. destruct (in_session m) eqn:Hs; [|reflexivity].
  apply in_session_process in Hs as [p Hp']. congruence.
Qed.

#[local] Arguments off_trace : simpl never.

(** One teardown: its folds are written and followed by the kill, and sum
    up to the new totals; there is at most one fold, exactly one for a
    live session when the engine is found; the totals only grow when no
    counter is negative, and stay as they are outside a live session. *)
Lemma cleanup_fold e m :
  ledger (cumulativeStats m) (cleanup_trace e m)
    = Some (cumulativeStats (cleanup_state e m)) /\
  (count_folds (cleanup_trace e m) <= live m)%nat /\
  (engine_found (fold_env e) -> count_folds (cleanup_trace e m) = live m) /\
  (counters_nonneg (fold_env e) ->
   uplink (cumulativeStats m) <= uplink (cumulativeStats (cleanup_state e m)) /\
   downlink (cumulativeStats m) <= downlink (cumulativeStats (cleanup_state e m))) /\
  (in_session m = false -> cumulativeStats (cleanup_state e m) = cumulativeStats m).
Proof.
  unfold cleanup_trace, cleanup_state, live.
  pose proof (off_trace_folds (off_fails e) (off_service m)) as Hoff0.
  destruct (in_session m) eqn:Hs.
  - destruct (in_session_process m Hs) as [p Hp].
    rewrite fold_state_process, Hp. unfold fold_trace, fold_state.
    destruct (locate (fold_bin (fold_env e))) as [q|] eqn:Hloc.
    + change ([StatsQuery q "uplink"; StatsQuery q "downlink";
               Folded (query_sum (fold_uplink (fold_env e)))
                      (query_sum (fold_downlink (fold_env e)));
               WriteStats (folded_stats (fold_env e) (cumulativeStats m))] ++
              [Kill p] ++ off_trace (off_fails e) (off_service m) ++ [UnlinkConfig])%list
        with (StatsQuery q "uplink" :: StatsQuery q "downlink" ::
              Folded (query_sum (fold_uplink (fold_env e)))
                     (query_sum (fold_downlink (fold_env e))) ::
              WriteStats (folded_stats (fold_env e) (cumulativeStats m)) ::
              Kill p :: (off_trace (off_fails e) (off_service m) ++ [UnlinkConfig])%list).
      do 5 rewrite count_folds_cons. rewrite Hoff0.
      cbn [ledger is_fold Nat.add].
      rewrite bool_decide_eq_true_2 by reflexivity.
      rewrite (ledger_no_fold _ _ Hoff0).
      split; [reflexivity|]. split; [lia|]. split; [reflexivity|].
      split; [|discriminate].
      intros [Hu Hd]. apply query_sum_nonneg in Hu, Hd.
      unfold with_stats, folded_stats, with_process; cbn [cumulativeStats uplink downlink].
      lia.
    + change ([] ++ [Kill p] ++ off_trace (off_fails e) (off_service m) ++ [UnlinkConfig])%list
        with (Kill p :: (off_trace (off_fails e) (off_service m) ++ [UnlinkConfig])%list).
      rewrite count_folds_cons, Hoff0.
      cbn [ledger is_fold Nat.add].
      rewrite (ledger_no_fold _ _ Hoff0).
      split; [reflexivity|]. split; [lia|]. split.
      { intros H. apply engine_found_locate in H as [q Hq]. congruence. }
      split; [|discriminate].
      intros _. unfold with_process; cbn [cumulativeStats]. lia.
  - assert (Hcum : cumulativeStats
                     match process m with
                     | Some _ => with_process m None
                     | None => m
                     end = cumulativeStats m) by (destruct (process m); reflexivity).
    rewrite Hcum. cbn [app].
    assert (Hk : count_folds
                   (match process m with Some p => [Kill p] | None => [] end ++
                    off_trace (off_fails e) (off_service m) ++ [UnlinkConfig]) = 0%nat).
    { rewrite count_folds_app, Hoff0. destruct (process m); reflexivity. }
    rewrite (ledger_no_fold _ _ Hk), Hk.
    repeat split; lia.
Qed.

Lemma pre_fold e m :
  cumulativeStats (pre_state e m) = cumulativeStats (cleanup_state (before e) m) /\
  count_folds (pre_trace e m) = count_folds (cleanup_trace (before e) m) /\
  ledger (cumulativeStats m) (pre_trace e m)
    = Some (cumulativeStats (cleanup_state (before e) m)).
Proof.
  unfold pre_state, pre_trace. simpl.
  destruct (bool_decide (is_Some (process m))) eqn:H.
  - repeat split. apply cleanup_fold.
  - apply bool_decide_eq_false in H.
    assert (Hp : process m = None) by (destruct (process m); [exfalso; eauto | reflexivity]).
    destruct (cleanup_idle (before e) m Hp) as [-> ->].
    rewrite (off_trace_folds (off_fails (before e)) (off_service m)).
    repeat split.
Qed.

Lemma live_error m e : live (with_status m Error e) = 0%nat.
Proof. unfold live. rewrite in_session_error. reflexivity. Qed.

(** One call: what it adds to the trace and to the totals. *)
Lemma step_fold op m :
  exists r m' t,
    step op m = (Ok r, m', t) /\
    ledger (cumulativeStats m) t = Some (cumulativeStats m') /\
    (count_folds t + live m' <= opened op r + live m)%nat /\
    (engine_found (fold_env (teardown_env op)) ->
     (count_folds t + live m' = opened op r + live m)%nat) /\
    (counters_nonneg (fold_env (teardown_env op)) ->
     uplink (cumulativeStats m) <= uplink (cumulativeStats m') /\
     downlink (cumulativeStats m) <= downlink (cumulativeStats m')).
Proof.
  destruct op as [e uri | e]; simpl.
  - rewrite connect_run. do 3 eexists. split; [reflexivity|].
    unfold connect_result, connect_state, connect_trace.
    destruct (pre_fold e m) as (Hcum & Hcount & Hledger).
    destruct (cleanup_fold (before e) m) as (_ & Hle & Heq & Hmono & _).
    rewrite (ledger_app _ _ _ _ Hledger).
    rewrite count_folds_app, Hcount.
    destruct (attempt e uri) as [config p | msg calls spawned] eqn:Hatt.
    + assert (H0 : count_folds ([WriteConfig config; Spawn p] ++
                     fst (run_cmds (on_fails (proxy_env e)) (proxy_service e) on_cmds)) = 0%nat).
      { rewrite count_folds_app, run_cmds_folds. reflexivity. }
      rewrite H0, (ledger_no_fold _ _ H0).
      change (live (with_status _ Connected None)) with 1%nat.
      change (cumulativeStats (with_status _ Connected None))
        with (cumulativeStats (pre_state e m)).
      rewrite Hcum. simpl. split; [reflexivity|]. split; [lia|].
      split; [intros H; rewrite (Heq H); lia | exact Hmono].
    + set (mx := with_status _ Error (Some msg)).
      destruct (cleanup_fold (after e) mx) as (Hl' & Hle' & _ & _ & Hsame).
      assert (Hcum' : cumulativeStats mx = cumulativeStats (cleanup_state (before e) m)).
      { rewrite <- Hcum. subst mx. destruct spawned; reflexivity. }
      rewrite Hsame in * by apply in_session_error.
      rewrite Hcum' in *.
      assert (Hl0 : live mx = 0%nat) by apply live_error.
      rewrite (live_no_process _ (cleanup_state_process _ _)).
      assert (Hc0 : count_folds calls = 0%nat).
      { destruct (attempt_failed _ _ _ _ _ Hatt)
          as [[_ [-> | [c ->]]] | (c & p & _ & ->)]; reflexivity. }
      rewrite (ledger_app _ _ _ _ (ledger_no_fold calls _ Hc0)).
      rewrite count_folds_app, Hc0.
      simpl. split; [exact Hl'|]. split; [lia|].
      split; [intros H; rewrite (Heq H); lia | exact Hmono].
  - rewrite disconnect_run. do 3 eexists. split; [reflexivity|].
    destruct (cleanup_fold e m) as (Hledger & Hle & Heq & Hmono & _).
    rewrite (live_no_process (with_status (cleanup_state e m) Disconnected None))
      by apply cleanup_state_process.
    simpl. split; [exact Hledger|]. split; [lia|].
    split; [intros H; rewrite (Heq H); lia | exact Hmono].
Qed.



(** The sample sequence opens two sessions and folds each of them once;
    the totals end at twice the reported traffic. *)
Example one_cycle_totals :
  exists m' t,
    run one_cycle fresh = (Ok 2%nat, m', t) /\
    count_folds t = 2%nat /\ live m' = 0%nat /\
    cumulativeStats m' = {| uplink := 2468; downlink := 11200 |}.
Proof. do 2 eexists. split; [vm_compute; reflexivity|]. repeat split. Qed.

(** ** The readiness wait *)

Lemma append_assoc (a b c : string) : (a ++ b) ++ c = a ++ (b ++ c).
Proof.
  induction a as [|x a IH]; [reflexivity|].
  change (String x ((a ++ b) ++ c) = String x (a ++ (b ++ c))).
  rewrite IH. reflexivity.
Qed.

Lemma append_empty (a : string) : a ++ "" = a.
Proof.
  induction a as [|x a IH]; [reflexivity|].
  change (String x (a ++ "") = String x a). rewrite IH. reflexivity.
Qed.

Lemma settle_first (evs : list ProcEvent) (buf : string) :
  settle Connecting buf evs =
  match List.find settles evs with
  | None | Some (Stdout _) | Some (Stderr _) => Ok tt
  | Some (ProcError e) => Throw ("xray spawn error: " ++ e)
  | Some (Exit _) => Throw ("xray error: " ++ errMsg (buf ++ captured evs))
  end.
Proof.
  revert buf. induction evs as [|ev rest IH]; intros buf; [reflexivity|].
  destruct ev as [d | d | e | code]; cbn [settle List.find settles captured chunk].
  - fold (has_marker d). destruct (has_marker d); [reflexivity|].
    rewrite IH, append_assoc. reflexivity.
  - rewrite IH, append_assoc. reflexivity.
  - reflexivity.
  - rewrite bool_decide_eq_true_2 by reflexivity. rewrite andb_true_r.
    destruct (nonzero code).
    + rewrite append_empty. reflexivity.
    + rewrite IH. reflexivity.
Qed.

(** *** The diagnostic *)

Lemma strip_prefix_app (p s rest : string) :
  Js.strip_prefix p s = Some rest -> s = p ++ rest.
Proof.
  revert s. induction p as [|a p IH]; intros s H.
  - simpl in H. injection H as ->. reflexivity.
  - destruct s as [|b s]; simpl in H; [discriminate|].
    destruct (Ascii.eqb a b) eqn:Hab; [|discriminate].
    apply Ascii.eqb_eq in Hab as ->.
    change (String b s = String b (p ++ rest)). f_equal. apply IH, H.
Qed.

Lemma strip_prefix_refl (p r : string) : Js.strip_prefix p (p ++ r) = Some r.
Proof.
  induction p as [|a p IH]; [destruct r; reflexivity|].
  change (Js.strip_prefix (String a p) (String a (p ++ r)) = Some r).
  simpl. rewrite Ascii.eqb_refl. exact IH.
Qed.

Lemma span_app (f : ascii -> bool) (s g r : string) :
  Js.span f s = (g, r) ->
  s = g ++ r /\ forall c, In c (list_ascii_of_string g) -> f c = true.
Proof.
  revert g r. induction s as [|c s IH]; intros g r H; simpl in H.
  - injection H as <- <-. split; [reflexivity | intros c []].
  - destruct (f c) eqn:Hc.
    + destruct (Js.span f s) as [a b]. injection H as <- <-.
      destruct (IH a b eq_refl) as [-> Hall]. split; [reflexivity|].
      intros x [<- | Hx]; [exact Hc | apply Hall, Hx].
    + injection H as <- <-. split; [reflexivity | intros x []].
Qed.

Lemma includes_here (s sub : string) : Js.startsWith s sub = true -> Js.includes s sub = true.
Proof. intros H. destruct s; simpl; rewrite H; reflexivity. Qed.

Lemma includes_later (c : ascii) (s sub : string) :
  Js.includes s sub = true -> Js.includes (String c s) sub = true.
Proof. intros H. simpl. rewrite H. apply orb_true_r. Qed.

(** What [failMatch] returns is text that follows the literal in the
    output, is not empty, and stays on one line. *)
Lemma failMatch_sound (out g : string) :
  failMatch out = Some g ->
  Js.includes out ("Failed to start:" ++ g) = true /\
  g <> "" /\
  forall c, In c (list_ascii_of_string g) -> Js.is_line_terminator c = false.
Proof.
  induction out as [|c out IH].
  - simpl. discriminate.
  - intros H.
    assert (Hcase :
      (exists rest r, Js.strip_prefix "Failed to start:" (String c out) = Some rest /\
                      Js.span (fun c => negb (Js.is_line_terminator c)) rest = (g, r) /\
                      g <> "") \/
      failMatch out = Some g).
    { cbn [failMatch] in H.
      destruct (Js.strip_prefix "Failed to start:" (String c out)) as [rest|]; [|auto].
      destruct (Js.span (fun c => negb (Js.is_line_terminator c)) rest) as [[|x g'] r] eqn:Hsp;
        [auto|].
      injection H as <-. left. exists rest, r. repeat split; [exact Hsp | discriminate]. }
    destruct Hcase as [(rest & r & Hpre & Hsp & Hne) | Hlater].
    + apply strip_prefix_app in Hpre. apply span_app in Hsp as [-> Hall].
      split; [|split; [exact Hne|]].
      * apply includes_here. unfold Js.startsWith. rewrite Hpre.
        rewrite <- append_assoc, strip_prefix_refl. reflexivity.
      * intros x Hx. apply Hall in Hx. destruct (Js.is_line_terminator x); [discriminate | reflexivity].
    + destruct (IH Hlater) as (Hinc & Hne & Hall).
      split; [apply includes_later, Hinc | split; assumption].
Qed.

(** The message after ['xray error: ']: the trimmed text after the first
    usable ['Failed to start:'], cut to 150 characters; without one, the
    first 200 characters of the output. *)
Lemma errMsg_diagnostic (out : string) :
  match failMatch out with
  | Some g =>
      errMsg out = Js.take 150 (Js.trim g) /\
      Js.includes out ("Failed to start:" ++ g) = true
  | None => errMsg out = Js.take 200 out
  end.
Proof.
  unfold errMsg. destruct (failMatch out) as [g|] eqn:H; [|reflexivity].
  split; [reflexivity | apply (failMatch_sound _ _ H)].
Qed.

(** C8, as stated, fails: when the child process reports a spawn error and
    nothing else, no marker was seen and the process never exited with a
    non-zero code, so the wait budget would elapse as the claim requires;
    yet [connect] does not proceed to [Connected], it returns the spawn
    error. *)
Lemma spawn_error_counterexample :
  starts (calm_connect [ProcError "spawn EACCES"]) (ValidUrl url_plain) /\
  marker_in_stdout [ProcError "spawn EACCES"] = false /\
  exits_nonzero [ProcError "spawn EACCES"] = false /\
  exists m' t,
    connect (calm_connect [ProcError "spawn EACCES"]) (ValidUrl url_plain) fresh
      = (Ok (ok_false "xray spawn error: spawn EACCES"), m', t) /\
    status m' = Error.
Proof.
  split; [repeat split|]. split; [reflexivity|]. split; [reflexivity|].
  do 2 eexists. split; [vm_compute; reflexivity | reflexivity].
Qed.

(** C8, amended: when the steps before the wait succeed, the outcome of
    [connect] is decided by the first event that settles the wait: a chunk
    of standard output containing ['started'] or ['listening'], a spawn
    error, or an exit with a code other than zero.  A marker chunk, or no
    such event before the timer fires, makes [connect] return
    [{ ok: true }] in state [Connected]; a spawn error makes it return that
    error; a non-zero exit makes it return ['xray error: '] followed by
    the diagnostic that [errMsg] extracts from the output captured so
    far.  In both failures the manager ends in state [Error] with the
    message. *)
Theorem readiness_verdict (e : ConnectEnv) (uri : Uri) (m : Manager) :
  starts e uri ->
  exists m' t,
    connect e uri m = (Ok (verdict (proc_events e)), m', t) /\
    (verdict (proc_events e) = ok_true ->
     status m' = Connected /\ is_Some (process m')) /\
    (forall msg, verdict (proc_events e) = ok_false msg ->
     status m' = Error /\ error m' = Some msg /\ process m' = None).
Proof.
  intros (Hgen & Hwrite & Hbin & Hspawn).
  rewrite connect_run. unfold connect_result, connect_state, attempt.
  destruct (generateConfig uri) as [config|]; [|discriminate].
  rewrite Hwrite, Hspawn.
  assert (Hloc : exists p, locate (bin_env e) = Some p).
  { unfold locate. destruct (prod_exists (bin_env e)), (dev_exists (bin_env e));
      simpl in Hbin; eauto; discriminate. }
  destruct Hloc as [p ->].
  rewrite settle_first. unfold verdict. change ("" ++ captured (proc_events e))
    with (captured (proc_events e)).
  destruct (List.find settles (proc_events e)) as [[d | d | err | code]|];
    do 2 eexists; (split; [reflexivity|]); split;
    try (intros _; split; [reflexivity | simpl; eauto]);
    try discriminate;
    intros msg Hmsg; injection Hmsg as <-;
    match goal with
    | |- status (cleanup_state ?c ?mx) = _ /\ _ =>
        destruct (cleanup_state_fields c mx) as (-> & -> & _);
        rewrite cleanup_state_process; repeat split
    end.
Qed.

Lemma readiness_verdict_witness :
  starts (calm_connect [Stderr "Failed to start: app/proxyman: bad port"; Exit (Some 23)])
         (ValidUrl url_no_port) /\
  exists m' t,
    connect (calm_connect [Stderr "Failed to start: app/proxyman: bad port"; Exit (Some 23)])
            (ValidUrl url_no_port) fresh
      = (Ok (ok_false "xray error: app/proxyman: bad port"), m', t) /\
    status m' = Error.
Proof.
  assert (Hs : starts (calm_connect [Stderr "Failed to start: app/proxyman: bad port";
                                     Exit (Some 23)]) (ValidUrl url_no_port))
    by (repeat split).
  split; [exact Hs|].
  destruct (readiness_verdict _ _ fresh Hs) as (m' & t & Hc & _ & Herr).
  exists m', t. split; [exact Hc|].
  destruct (Herr _ eq_refl) as [H _]. exact H.
Defined.

(** A timeout, a marker and a clean exit followed by the timeout all count
    as ready. *)
Example ready_cases :
  verdict [] = ok_true /\
  verdict [Stderr "warming up"; Stdout "Xray 1.8.4 started"; Exit (Some 1)] = ok_true /\
  verdict [Stdout "sta"; Stdout "rted"; Exit (Some 0)] = ok_true /\
  verdict [Stdout "sta"; Stdout "rted"; Exit None]
    = ok_false "xray error: started".
Proof. repeat split. Qed.

(** ** Reading the statistics *)

(** C9, as stated, fails: right after construction, not connected,
    [getTrafficStats] returns the two cumulative counters only; the session
    counters are absent from the record. *)
Lemma stats_disconnected_counterexample :
  exists r t,
    getTrafficStats calm_stats fresh = (Ok r, fresh, t) /\
    sessionUplink r = None /\ sessionDownlink r = None /\
    ~ (is_Some (sessionUplink r) /\ is_Some (sessionDownlink r)).
Proof.
  do 2 eexists. split; [reflexivity|]. split; [reflexivity|]. split; [reflexivity|].
  intros [[x Hx] _]. discriminate.
Qed.

(** C9, amended: [getTrafficStats] never throws and leaves the manager as
    it is.  Outside a live session (state [Connected] with a process) it
    queries nothing and returns the cumulative uplink and downlink only,
    without session counters.  In a live session, when the engine binary is
    found, it queries the running engine for both patterns and returns four
    counters: the two session counters as read, and uplink and downlink as
    the cumulative totals plus the session counters; when the binary is not
    found it returns the cumulative pair only. *)
Theorem stats_fields (e : StatsEnv) (m : Manager) :
  exists r t,
    getTrafficStats e m = (Ok r, m, t) /\
    (in_session m = false -> r = plain_stats m /\ t = []) /\
    (in_session m = true ->
     match locate (stats_bin e) with
     | Some p =>
         r = {| ts_uplink := uplink (cumulativeStats m) + query_sum (stats_uplink e);
                ts_downlink := downlink (cumulativeStats m) + query_sum (stats_downlink e);
                sessionUplink := Some (query_sum (stats_uplink e));
                sessionDownlink := Some (query_sum (stats_downlink e)) |} /\
         t = [StatsQuery p "uplink"; StatsQuery p "downlink"]
     | None => r = plain_stats m /\ t = []
     end).
Proof.
  unfold getTrafficStats. rewrite bind_run. unfold get at 1.
  assert (Hguard : negb (bool_decide (status m = Connected)) ||
                   negb (bool_decide (is_Some (process m))) = negb (in_session m)).
  { unfold in_session. destruct (bool_decide (status m = Connected)),
      (bool_decide (is_Some (process m))); reflexivity. }
  rewrite Hguard. destruct (in_session m); cbn [negb].
  - unfold try_catch. rewrite bind_run, getXrayPath_run.
    destruct (locate (stats_bin e)) as [p|].
    + rewrite bind_run, queryStats_run, bind_run, queryStats_run.
      do 2 eexists. split; [reflexivity|]. split; [discriminate|]. intros _. split; reflexivity.
    + do 2 eexists. split; [reflexivity|]. split; [discriminate|]. intros _. split; reflexivity.
  - do 2 eexists. split; [reflexivity|]. split; [|discriminate]. intros _. split; reflexivity.
Qed.

Lemma stats_fields_witness :
  in_session busy = true /\ in_session fresh = false /\
  exists r t,
    getTrafficStats calm_stats busy = (Ok r, busy, t) /\
    r = {| ts_uplink := 800; ts_downlink := 9201;
           sessionUplink := Some 700; sessionDownlink := Some 9001 |}.
Proof.
  split; [reflexivity|]. split; [reflexivity|].
  destruct (stats_fields calm_stats busy) as (r & t & Hrun & _ & Hlive).
  exists r, t. split; [exact Hrun|].
  destruct (Hlive eq_refl) as [-> _]. reflexivity.
Defined.

(** ** The durable record *)

(** C10: constructing the manager never throws; when the record is
    missing, unreadable or not JSON, the cumulative totals start at zero,
    and when it is readable they are the stored ones; a failed write of the
    record is swallowed by [_saveStats], and [_saveCumulativeFromSession]
    never throws either, whatever fails inside it. *)
Theorem persistence_failures_swallowed :
  (forall f, exists m,
      constructor f = Ok m /\ status m = Disconnected /\ error m = None /\
      process m = None) /\
  (forall f, unusable f ->
     exists m, constructor f = Ok m /\
               cumulativeStats m = {| uplink := 0; downlink := 0 |}) /\
  (forall s, exists m, constructor (Stored s) = Ok m /\ cumulativeStats m = s) /\
  (forall fails m, _saveStats fails m = (Ok tt, m, [WriteStats (cumulativeStats m)])) /\
  (forall e m, exists m' t, _saveCumulativeFromSession e m = (Ok tt, m', t)).
Proof.
  split; [|split; [|split; [|split]]].
  - intros [| e | e | s]; eexists; repeat split.
  - intros [| e | e | s] H; try (eexists; split; reflexivity). destruct H.
  - intros s. eexists. split; reflexivity.
  - apply _saveStats_run.
  - intros e m. rewrite _saveCumulativeFromSession_run. eauto.
Qed.

Lemma persistence_failures_swallowed_witness :
  unusable (Corrupt "Unexpected end of JSON input") /\
  (exists m, constructor (Corrupt "Unexpected end of JSON input") = Ok m /\
             cumulativeStats m = {| uplink := 0; downlink := 0 |}) /\
  _saveStats (Some "EACCES: permission denied") busy
    = (Ok tt, busy, [WriteStats (cumulativeStats busy)]).
Proof.
  destruct persistence_failures_swallowed as (_ & H0 & _ & Hsave & _).
  split; [exact I|]. split.
  - exact (H0 (Corrupt "Unexpected end of JSON input") I).
  - apply Hsave.
Defined.

(** * Further properties *)

(** ** Query parameters *)

Lemma fromEntries_snoc (l : list (string * string)) (k v : string) :
  fromEntries (l ++ [(k, v)]) = <[k := v]> (fromEntries l).
Proof. unfold fromEntries. rewrite fold_left_app. reflexivity. Qed.

(** X1: when a key occurs more than once in the query, the parameter map
    holds the value of its last occurrence; a key that does not occur is
    absent. *)
Theorem fromEntries_last_wins (l : list (string * string)) (k : string) :
  fromEntries l !! k =
  snd <$> List.find (fun kv => bool_decide (kv.1 = k)) (rev l).
Proof.
  induction l as [|[k' v'] l IH] using rev_ind; [reflexivity|].
  rewrite fromEntries_snoc, rev_app_distr. simpl.
  rewrite lookup_insert. destruct (decide (k' = k)) as [->|Hne].
  - rewrite bool_decide_eq_true_2 by reflexivity. reflexivity.
  - rewrite bool_decide_eq_false_2 by exact Hne. exact IH.
Qed.

(** ** Security and transport of a descriptor *)

Lemma parse_stream (u : URL) (d : Descriptor) :
  parseVlessUri (ValidUrl u) = Ok d ->
  descriptor_stream d =
  Some (streamSettings_of (fromEntries (searchParams u)) (hostname u)).
Proof.
  rewrite parseVlessUri_valid.
  destruct (Js.decodeURIComponent (raw_label u)); [|discriminate].
  intros H. injection H as <-. reflexivity.
Qed.

Lemma param_is_true params k v :
  param_is params k v = true <-> params !! k = Some v.
Proof.
  unfold param_is. destruct (params !! k) as [s|]; [|split; discriminate].
  rewrite String.eqb_eq. split; congruence.
Qed.

Lemma param_is_false params k v :
  param_is params k v = false <-> params !! k <> Some v.
Proof.
  rewrite <- param_is_true. destruct (param_is params k v); split; congruence.
Qed.

(** X2: the security block of a parsed descriptor is decided by the
    [security] parameter alone.  ['tls'] gives a [tlsSettings] block and
    nothing else, ['reality'] a [realitySettings] block and nothing else;
    any other value, or none, is not turned down: the descriptor then has
    no [security] member and neither block. *)
Theorem security_branch (u : URL) (d : Descriptor) :
  parseVlessUri (ValidUrl u) = Ok d ->
  exists ss,
    descriptor_stream d = Some ss /\
    (fromEntries (searchParams u) !! "security" = Some "tls" ->
     security ss = Some "tls" /\ is_Some (tlsSettings ss) /\
     realitySettings ss = None) /\
    (fromEntries (searchParams u) !! "security" = Some "reality" ->
     security ss = Some "reality" /\ is_Some (realitySettings ss) /\
     tlsSettings ss = None) /\
    (fromEntries (searchParams u) !! "security" <> Some "tls" ->
     fromEntries (searchParams u) !! "security" <> Some "reality" ->
     security ss = None /\ tlsSettings ss = None /\ realitySettings ss = None).
Proof.
  intros Hparse. eexists. split; [apply (parse_stream _ _ Hparse)|].
  set (params := fromEntries (searchParams u)).
  unfold streamSettings_of, security_of, tlsSettings_of, realitySettings_of; simpl.
  split; [|split].
  - intros H. apply param_is_true in H. rewrite H. repeat split; eauto.
  - intros H. assert (H' : param_is params "security" "tls" = false).
    { apply param_is_false. rewrite H. discriminate. }
    apply param_is_true in H. rewrite H, H'. repeat split; eauto.
  - intros H1 H2. apply param_is_false in H1, H2. rewrite H1, H2. repeat split.
Qed.

Lemma security_branch_witness :
  exists d ss,
    parseVlessUri (ValidUrl url_no_port) = Ok d /\
    descriptor_stream d = Some ss /\
    security ss = Some "tls" /\ realitySettings ss = None.
Proof.
  eexists.
  destruct (security_branch url_no_port _ eq_refl) as (ss & Hss & Htls & _).
  exists ss. destruct (Htls eq_refl) as (H1 & _ & H3). auto.
Defined.

(** X3: the [type] parameter passes into [network] as it is, ['tcp'] when
    it is missing or empty, and no value is turned down.  A descriptor
    carries at most one transport block: [wsSettings] exactly for ['ws'],
    [grpcSettings] exactly for ['grpc'], [tcpSettings] exactly for ['tcp']
    with [headerType=http]; for every other network it carries none. *)
Theorem transport_branch (u : URL) (d : Descriptor) :
  parseVlessUri (ValidUrl u) = Ok d ->
  exists ss,
    descriptor_stream d = Some ss /\
    network ss = Js.or_default (fromEntries (searchParams u) !! "type") "tcp" /\
    network ss <> "" /\
    (transport_blocks ss <= 1)%nat /\
    (is_Some (wsSettings ss) <-> network ss = "ws") /\
    (is_Some (grpcSettings ss) <-> network ss = "grpc") /\
    (is_Some (tcpSettings ss) <->
     network ss = "tcp" /\
     fromEntries (searchParams u) !! "headerType" = Some "http").
Proof.
  intros Hparse. eexists. split; [apply (parse_stream _ _ Hparse)|].
  set (params := fromEntries (searchParams u)).
  unfold streamSettings_of, transport_blocks, wsSettings_of, grpcSettings_of,
    tcpSettings_of; simpl.
  set (net := Js.or_default (params !! "type") "tcp").
  split; [reflexivity|].
  split; [apply or_default_nonempty; discriminate|].
  rewrite <- (param_is_true params "headerType" "http").
  assert (Hnone : forall A, ~ is_Some (@None A)) by (intros A [x Hx]; discriminate).
  destruct (String.eqb_spec net "ws") as [Hws|Hws].
  { rewrite Hws. simpl. split; [lia|]. split; [split; eauto|].
    split; split; try (intros H; exfalso; apply (Hnone _ H)).
    - discriminate.
    - intros [H _]. discriminate. }
  destruct (String.eqb_spec net "grpc") as [Hg|Hg].
  { rewrite Hg. simpl. split; [lia|].
    split; [split; [intros H; exfalso; apply (Hnone _ H) | discriminate]|].
    split; [split; eauto|].
    split; [intros H; exfalso; apply (Hnone _ H) | intros [H _]; discriminate]. }
  destruct (String.eqb_spec net "tcp") as [Ht|Ht].
  { rewrite Ht. destruct (param_is params "headerType" "http"); simpl.
    - split; [lia|].
      split; [split; [intros H; exfalso; apply (Hnone _ H) | discriminate]|].
      split; [split; [intros H; exfalso; apply (Hnone _ H) | discriminate]|].
      split; eauto.
    - split; [lia|].
      split; [split; [intros H; exfalso; apply (Hnone _ H) | discriminate]|].
      split; [split; [intros H; exfalso; apply (Hnone _ H) | discriminate]|].
      split; [intros H; exfalso; apply (Hnone _ H) | intros [_ H]; discriminate]. }
  simpl. split; [lia|].
  split; [split; [intros H; exfalso; apply (Hnone _ H) | congruence]|].
  split; [split; [intros H; exfalso; apply (Hnone _ H) | congruence]|].
  split; [intros H; exfalso; apply (Hnone _ H) | intros [H _]; congruence].
Qed.

Lemma transport_branch_witness :
  exists d ss,
    parseVlessUri (ValidUrl url_plain) = Ok d /\
    descriptor_stream d = Some ss /\
    network ss = "tcp" /\ transport_blocks ss = 0%nat.
Proof.
  eexists.
  destruct (transport_branch url_plain _ eq_refl) as (ss & Hss & Hnet & _).
  exists ss. split; [reflexivity|]. split; [exact Hss|].
  split; [exact Hnet|]. injection Hss as <-. reflexivity.
Defined.

(** ** TLS settings and the ALPN list *)

Lemma split_on_cons (sep : ascii) (s : string) :
  exists x xs, Js.split_on sep s = x :: xs.
Proof.
  induction s as [|c s IH]; simpl; [eauto|].
  destruct (Ascii.eqb c sep); [eauto|].
  destruct IH as (x & xs & ->). eauto.
Qed.

(** Joining the pieces of a split with the separator gives the text back. *)
Lemma split_on_concat (sep : ascii) (s : string) :
  String.concat (String sep "") (Js.split_on sep s) = s.
Proof.
  induction s as [|c s IH]; [reflexivity|]. simpl.
  destruct (Ascii.eqb_spec c sep) as [->|Hne].
  - destruct (split_on_cons sep s) as (x & xs & Hx). rewrite Hx in *.
    change (String.concat (String sep "") ("" :: x :: xs))
      with (String sep (String.concat (String sep "") (x :: xs))).
    rewrite IH. reflexivity.
  - destruct (split_on_cons sep s) as (x & xs & Hx). rewrite Hx in *.
    destruct xs as [|y ys].
    + simpl in *. rewrite IH. reflexivity.
    + change (String.concat (String sep "") (String c x :: y :: ys))
        with (String c (String.concat (String sep "") (x :: y :: ys))).
      rewrite IH. reflexivity.
Qed.

Lemma includes_char_cons (c x : ascii) (s : string) :
  Js.includes (String x s) (String c "") = Ascii.eqb c x || Js.includes s (String c "").
Proof.
  simpl. unfold Js.startsWith. simpl.
  destruct (Ascii.eqb c x); [destruct s|]; reflexivity.
Qed.

Lemma includes_char_nil (c : ascii) : Js.includes "" (String c "") = false.
Proof. reflexivity. Qed.

Lemma split_on_pieces (sep : ascii) (s : string) :
  Forall (fun p => Js.includes p (String sep "") = false) (Js.split_on sep s).
Proof.
  induction s as [|c s IH]; simpl.
  - repeat constructor.
  - destruct (Ascii.eqb_spec c sep) as [->|Hne].
    + constructor; [reflexivity | exact IH].
    + destruct (Js.split_on sep s) as [|x xs].
      * constructor; [|constructor]. rewrite includes_char_cons.
        rewrite (proj2 (Ascii.eqb_neq sep c)) by congruence. reflexivity.
      * inversion IH; subst. constructor; [|assumption].
        rewrite includes_char_cons.
        rewrite (proj2 (Ascii.eqb_neq sep c)) by congruence. assumption.
Qed.

(** X4: with [security=tls] the descriptor's TLS block never allows an
    insecure certificate, names the [sni] parameter as server, or the host
    when that is missing or empty, and always has a fingerprint.  Its ALPN
    list is there exactly when the [alpn] parameter is set and not empty;
    its entries contain no comma, and joined with commas they give the
    parameter back. *)
Theorem tls_block (u : URL) (d : Descriptor) :
  parseVlessUri (ValidUrl u) = Ok d ->
  fromEntries (searchParams u) !! "security" = Some "tls" ->
  exists ss t,
    descriptor_stream d = Some ss /\ tlsSettings ss = Some t /\
    tls_allowInsecure t = false /\
    tls_serverName t = Js.or_default (fromEntries (searchParams u) !! "sni") (hostname u) /\
    tls_fingerprint t <> "" /\
    match tls_alpn t with
    | Some pieces =>
        exists a, fromEntries (searchParams u) !! "alpn" = Some a /\ a <> "" /\
                  String.concat "," pieces = a /\
                  Forall (fun p => Js.includes p "," = false) pieces
    | None =>
        fromEntries (searchParams u) !! "alpn" = None \/
        fromEntries (searchParams u) !! "alpn" = Some ""
    end.
Proof.
  intros Hparse Hsec. do 2 eexists. split; [apply (parse_stream _ _ Hparse)|].
  set (params := fromEntries (searchParams u)) in *.
  unfold streamSettings_of, tlsSettings_of; simpl.
  rewrite (proj2 (param_is_true params "security" "tls") Hsec).
  split; [reflexivity|]. simpl.
  split; [reflexivity|]. split; [reflexivity|].
  split; [apply or_default_nonempty; discriminate|].
  subst params.
  destruct (fromEntries (searchParams u) !! "alpn") as [[|c a]|]; simpl; [auto | | auto].
  exists (String c a). split; [reflexivity|]. split; [discriminate|].
  split; [apply (split_on_concat "," (String c a)) | apply (split_on_pieces "," (String c a))].
Qed.

Lemma tls_block_witness :
  exists d ss t,
    parseVlessUri (ValidUrl url_no_port) = Ok d /\
    descriptor_stream d = Some ss /\ tlsSettings ss = Some t /\
    tls_allowInsecure t = false /\ tls_serverName t = "example.com".
Proof.
  eexists.
  destruct (tls_block url_no_port _ eq_refl eq_refl)
    as (ss & t & Hss & Ht & Hins & Hname & _).
  exists ss, t. repeat split; auto.
Defined.

(** ** The label *)

Lemma tokens_plain (s : string) :
  Js.includes s "%" = false ->
  Js.tokens s = Some (List.map Js.Lit (list_ascii_of_string s)).
Proof.
  induction s as [|c s IH]; [reflexivity|].
  rewrite (includes_char_cons "%" c s). intros H.
  apply orb_false_elim in H as [Hc Hs].
  cbn [Js.tokens list_ascii_of_string List.map].
  rewrite Ascii.eqb_sym, Hc, (IH Hs). reflexivity.
Qed.

Lemma utf8_plain (s : string) :
  Js.utf8 (List.map Js.Lit (list_ascii_of_string s)) = Some s.
Proof.
  induction s as [|c s IH]; [reflexivity|]. simpl. rewrite IH. reflexivity.
Qed.

Lemma decodeURIComponent_plain (s : string) :
  Js.includes s "%" = false -> Js.decodeURIComponent s = Some s.
Proof.
  intros H. unfold Js.decodeURIComponent. rewrite (tokens_plain s H). apply utf8_plain.
Qed.

(** X5: a URL whose fragment holds no percent sign always parses, and its
    label is the fragment after the [#], taken as it is; with no fragment
    the label is ['Volyent']. *)
Theorem plain_label (u : URL) :
  Js.includes (hash u) "%" = false ->
  exists d,
    parseVlessUri (ValidUrl u) = Ok d /\
    label d = match Js.slice1 (hash u) with
              | EmptyString => "Volyent"
              | l => l
              end.
Proof.
  intros H. rewrite parseVlessUri_valid. unfold raw_label.
  assert (Hraw : Js.includes (Js.slice1 (hash u)) "%" = false).
  { destruct (hash u) as [|c h]; [reflexivity|].
    rewrite (includes_char_cons "%" c h) in H. apply orb_false_elim in H as [_ H].
    exact H. }
  destruct (Js.slice1 (hash u)) as [|c l] eqn:Hl; simpl.
  - eexists. split; reflexivity.
  - rewrite (decodeURIComponent_plain (String c l) Hraw). eexists. split; reflexivity.
Qed.

Lemma plain_label_witness :
  Js.includes (hash url_no_port) "%" = false /\
  exists d, parseVlessUri (ValidUrl url_no_port) = Ok d /\ label d = "Home".
Proof.
  split; [reflexivity|].
  destruct (plain_label url_no_port eq_refl) as (d & Hd & Hl).
  exists d. split; [exact Hd | exact Hl].
Defined.

(** ** One child at a time *)

Lemma children_app n t1 t2 :
  children n (t1 ++ t2) =
  match children n t1 with
  | Some k => children k t2
  | None => None
  end.
Proof.
  revert n. induction t1 as [|ev t1 IH]; intros n; [reflexivity|].
  destruct ev; cbn [children app]; try apply IH.
  destruct n; [apply IH | reflexivity].
Qed.

Lemma children_quiet n t :
  existsb is_spawn t = false ->
  existsb (fun ev => match ev with Kill _ => true | _ => false end) t = false ->
  children n t = Some n.
Proof.
  revert n. induction t as [|ev t IH]; intros n Hs Hk; [reflexivity|].
  destruct ev; simpl in *; try discriminate; apply IH; assumption.
Qed.

Lemma off_trace_no_kill fails svc :
  existsb (fun ev => match ev with Kill _ => true | _ => false end)
          (off_trace fails svc ++ [UnlinkConfig]) = false.
Proof.
  unfold off_trace. destruct (fails (SetState Socks false)); [reflexivity|].
  destruct (fails (SetState Web false)); reflexivity.
Qed.

Lemma off_trace_children fails svc n :
  children n (off_trace fails svc ++ [UnlinkConfig]) = Some n.
Proof.
  apply children_quiet; [|apply off_trace_no_kill].
  rewrite existsb_app, off_trace_no_spawn. reflexivity.
Qed.

Lemma cleanup_children e m :
  children (held m) (cleanup_trace e m) = Some 0%nat.
Proof.
  unfold cleanup_trace, held. rewrite children_app.
  assert (Hfold : children (present (process m))
                    (if in_session m then fold_trace (fold_env e) m else [])
                  = Some (present (process m))).
  { destruct (in_session m); [|reflexivity].
    unfold fold_trace. destruct (locate _); reflexivity. }
  rewrite Hfold.
  destruct (process m) as [p|]; cbn [present app children Nat.pred];
    apply off_trace_children.
Qed.

Lemma run_cmds_children fails svc cmds n :
  children n (fst (run_cmds fails svc cmds)) = Some n.
Proof.
  revert n. induction cmds as [|c cmds IH]; intros n; [reflexivity|]. simpl.
  destruct (fails c); [reflexivity|].
  specialize (IH n). destruct (run_cmds fails svc cmds) as [t ok]. exact IH.
Qed.

Lemma step_children op m :
  children (held m) (trace_of (step op) m) = Some (held (state_after (step op) m)).
Proof.
  unfold trace_of, state_after. destruct op as [e uri | e]; simpl.
  - rewrite connect_run. simpl.
    unfold connect_trace, connect_state. rewrite children_app.
    assert (Hpre : children (held m) (pre_trace e m) = Some 0%nat).
    { unfold pre_trace, held. destruct (process m) as [p|] eqn:Hp.
      - rewrite bool_decide_eq_true_2 by eauto.
        rewrite <- Hp. apply cleanup_children.
      - rewrite bool_decide_eq_false_2 by (intros [x Hx]; discriminate). reflexivity. }
    rewrite Hpre.
    destruct (attempt e uri) as [config p | msg calls spawned] eqn:Hatt.
    + cbn [app children]. apply run_cmds_children.
    + rewrite children_app.
      set (mx := with_status _ Error (Some msg)).
      unfold held at 1. rewrite cleanup_state_process. cbn [present].
      pose proof (cleanup_children (after e) mx) as Hc. unfold held in Hc.
      destruct (attempt_failed _ _ _ _ _ Hatt)
        as [[-> [-> | [c ->]]] | (c & p & -> & ->)]; cbn [children];
        subst mx; cbn [process with_status with_process] in Hc;
        rewrite ?pre_state_process in Hc; exact Hc.
  - rewrite disconnect_run. simpl. unfold held at 2. cbn [process with_status].
    rewrite cleanup_state_process. apply cleanup_children.
Qed.

(** X10: over every sequence of [connect] and [disconnect] calls, from
    every state, the manager never starts a child process while another
    one it started is still alive, and at the end the only child not yet
    sent a kill is the one it holds. *)
Theorem one_child_at_a_time (ops : list Op) (m : Manager) :
  children (held m) (trace_of (run ops) m) = Some (held (state_after (run ops) m)).
Proof.
  revert m. induction ops as [|op ops IH]; intros m; [reflexivity|].
  pose proof (step_children op m) as Hstep.
  destruct (step_fold op m) as (r & m1 & t1 & Hrun1 & _).
  specialize (IH m1).
  unfold trace_of, state_after in *. simpl. rewrite bind_run, Hrun1 in *.
  simpl in Hstep.
  destruct (run ops m1) as [[r2 m2] t2] eqn:Hrun2. simpl in IH.
  rewrite bind_run, Hrun2.
  destruct r2 as [n|err]; simpl; rewrite children_app, Hstep, ?app_nil_r; exact IH.
Qed.

(** ** The states a call can leave *)




(** ** The system proxy around a session *)

Lemma connect_state_on_fails e f uri m :
  connect_state (with_on_fails e f) uri m = connect_state e uri m /\
  connect_result (with_on_fails e f) uri = connect_result e uri.
Proof. split; reflexivity. Qed.

(** X9: the answers of the [networksetup] commands that turn the proxy on
    have no influence on what [connect] returns or on the state it leaves:
    a connect that succeeds when they all go through also succeeds, with
    the same state, when each of them fails. *)
Theorem proxy_failures_not_fatal (e : ConnectEnv) (f : NetCmd -> option string)
    (uri : Uri) (m : Manager) :
  result_of (connect (with_on_fails e f) uri) m = result_of (connect e uri) m /\
  state_after (connect (with_on_fails e f) uri) m = state_after (connect e uri) m.
Proof.
  unfold result_of, state_after. rewrite !connect_run. simpl.
  destruct (connect_state_on_fails e f uri m) as [-> ->]. auto.
Qed.

(** With every command failing, [connect] still reports success; only the
    first command was tried. *)
Example proxy_all_failing :
  result_of (connect (with_on_fails (calm_connect []) (always "exit status 14"))
                     (ValidUrl url_plain)) fresh = Ok ok_true /\
  List.filter (fun ev => bool_decide (is_Some (event_service ev)))
    (trace_of (connect (with_on_fails (calm_connect []) (always "exit status 14"))
                       (ValidUrl url_plain)) fresh)
  = [Networksetup (SetProxy Socks 10808) "Wi-Fi"].
Proof. split; vm_compute; reflexivity. Qed.

Lemma run_cmds_in fails svc cmds ev :
  In ev (fst (run_cmds fails svc cmds)) ->
  exists c, ev = Networksetup c svc /\ In c cmds.
Proof.
  induction cmds as [|c cmds IH]; simpl; [intros []|].
  destruct (fails c).
  - intros [<- | []]. eauto.
  - destruct (run_cmds fails svc cmds) as [t ok]. simpl in *.
    intros [<- | H]; [eauto|]. destruct (IH H) as (c' & -> & Hc'). eauto.
Qed.

Lemma existsb_false_in {A} (f : A -> bool) (l : list A) (x : A) :
  existsb f l = false -> In x l -> f x = false.
Proof.
  intros H Hin. destruct (f x) eqn:Hx; [|reflexivity].
  assert (existsb f l = true) by (apply existsb_exists; eauto). congruence.
Qed.

Lemma connect_ok_started e uri m :
  result_of (connect e uri) m = Ok ok_true ->
  exists config p,
    attempt e uri = Started config p /\ generateConfig uri = Ok config /\
    trace_of (connect e uri) m =
      (pre_trace e m ++ [WriteConfig config; Spawn p] ++
       fst (run_cmds (on_fails (proxy_env e))
                     (getActiveNetworkService (service_env (proxy_env e))) on_cmds))%list /\
    state_after (connect e uri) m =
      with_status
        (with_service (with_process (pre_state e m) (Some {| binary := p |}))
                      (getActiveNetworkService (service_env (proxy_env e))))
        Connected None.
Proof.
  unfold result_of, trace_of, state_after. rewrite connect_run. simpl.
  unfold connect_result, connect_trace, connect_state.
  destruct (attempt e uri) as [config p | msg calls spawned] eqn:Hatt; [|discriminate].
  intros _. exists config, p. split; [reflexivity|]. split; [|split; reflexivity].
  unfold attempt in Hatt. destruct (generateConfig uri); [|discriminate].
  destruct (write_fails e); [discriminate|].
  destruct (locate (bin_env e)); [|discriminate].
  destruct (spawn_fails e); [discriminate|].
  destruct (settle _ _ _); [|discriminate].
  injection Hatt as -> _. reflexivity.
Qed.

(** X7: in a [connect] that succeeds, every address the system proxy is
    pointed at is an inbound of the config written for the engine in the
    same call: it listens on 127.0.0.1 at that port, with the SOCKS
    protocol for the SOCKS proxy and the HTTP protocol for the web
    proxies. *)
Theorem proxy_points_at_inbounds (e : ConnectEnv) (uri : Uri) (m : Manager) :
  result_of (connect e uri) m = Ok ok_true ->
  exists c,
    generateConfig uri = Ok c /\
    In (WriteConfig c) (trace_of (connect e uri) m) /\
    forall k port svc,
      In (Networksetup (SetProxy k port) svc) (trace_of (connect e uri) m) ->
      exists i, In i (inbounds c) /\ in_port i = port /\
                listen i = "127.0.0.1" /\ in_protocol i = inbound_protocol k.
Proof.
  intros Hok. destruct (connect_ok_started e uri m Hok) as (c & p & _ & Hgen & Htr & _).
  exists c. split; [exact Hgen|]. rewrite Htr. split.
  { apply in_or_app. right. left. reflexivity. }
  intros k port svc Hin.
  apply in_app_or in Hin as [Hin | Hin].
  { apply (existsb_false_in _ _ _ (pre_trace_no_enable e m)) in Hin. discriminate. }
  apply in_app_or in Hin as [[Hin | [Hin | []]] | Hin]; try discriminate.
  apply run_cmds_in in Hin as (cmd & Heq & Hcmd). injection Heq as <- _.
  rewrite generateConfig_of_parse in Hgen.
  destruct (parseVlessUri uri) as [d|]; [|discriminate]. injection Hgen as <-.
  unfold on_cmds in Hcmd. simpl in Hcmd.
  destruct Hcmd as [H | [H | [H | [H | [H | [H | []]]]]]]; try discriminate;
    injection H as <- <-;
    first [ solve [eexists; split; [simpl; left; reflexivity | repeat split]]
          | solve [eexists; split; [simpl; right; left; reflexivity | repeat split]] ].
Qed.

Lemma proxy_points_at_inbounds_witness :
  result_of (connect (calm_connect []) (ValidUrl url_plain)) fresh = Ok ok_true /\
  exists c,
    generateConfig (ValidUrl url_plain) = Ok c /\
    In (WriteConfig c) (trace_of (connect (calm_connect []) (ValidUrl url_plain)) fresh).
Proof.
  assert (H : result_of (connect (calm_connect []) (ValidUrl url_plain)) fresh = Ok ok_true)
    by reflexivity.
  split; [exact H|].
  destruct (proxy_points_at_inbounds _ _ _ H) as (c & Hc & Hin & _).
  exists c. split; [exact Hc | exact Hin].
Defined.

(** X8: when [connect] succeeds and the service it resolved has a name,
    the commands that turn the proxy on all address that service, and
    so does every proxy command of the [disconnect] that follows. *)
Theorem proxy_off_same_service (e : ConnectEnv) (uri : Uri) (m : Manager)
    (e2 : CleanupEnv) :
  result_of (connect e uri) m = Ok ok_true ->
  getActiveNetworkService (service_env (proxy_env e)) <> "" ->
  (forall ev, In ev (trace_of (connect e uri) m) -> enables_proxy ev = true ->
     event_service ev = Some (getActiveNetworkService (service_env (proxy_env e)))) /\
  (forall ev svc,
     In ev (trace_of (disconnect e2) (state_after (connect e uri) m)) ->
     event_service ev = Some svc ->
     svc = getActiveNetworkService (service_env (proxy_env e))).
Proof.
  intros Hok Hname.
  destruct (connect_ok_started e uri m Hok) as (c & p & _ & _ & Htr & Hst).
  rewrite Htr, Hst. set (name := getActiveNetworkService _) in *. split.
  - intros ev Hin Hen.
    apply in_app_or in Hin as [Hin | Hin].
    { apply (existsb_false_in _ _ _ (pre_trace_no_enable e m)) in Hin. congruence. }
    apply in_app_or in Hin as [[<- | [<- | []]] | Hin]; try discriminate.
    apply run_cmds_in in Hin as (cmd & -> & _). reflexivity.
  - intros ev svc Hin Hsvc. unfold trace_of in Hin. rewrite disconnect_run in Hin.
    simpl in Hin. unfold cleanup_trace in Hin.
    assert (Hoff : off_service
                     (with_status
                        (with_service (with_process (pre_state e m) (Some {| binary := p |}))
                                      name) Connected None) = name).
    { unfold off_service. simpl. destruct name; [congruence | reflexivity]. }
    rewrite Hoff in Hin.
    apply in_app_or in Hin as [Hin | Hin].
    { destruct (in_session _); [|destruct Hin].
      unfold fold_trace in Hin. destruct (locate _); [|destruct Hin].
      simpl in Hin. destruct Hin as [<- | [<- | [<- | [<- | []]]]]; discriminate. }
    apply in_app_or in Hin as [Hin | Hin].
    { simpl in Hin. destruct Hin as [<- | []]. discriminate. }
    apply in_app_or in Hin as [Hin | [<- | []]]; [|discriminate].
    unfold off_trace in Hin.
    destruct (off_fails e2 (SetState Socks false));
      [|destruct (off_fails e2 (SetState Web false))];
      simpl in Hin;
      repeat (destruct Hin as [<- | Hin]; [injection Hsvc as <-; reflexivity|]);
      destruct Hin.
Qed.

Lemma proxy_off_same_service_witness :
  result_of (connect (calm_connect []) (ValidUrl url_plain)) fresh = Ok ok_true /\
  getActiveNetworkService (service_env (proxy_env (calm_connect []))) <> "" /\
  forall ev svc,
    In ev (trace_of (disconnect calm_cleanup)
             (state_after (connect (calm_connect []) (ValidUrl url_plain)) fresh)) ->
    event_service ev = Some svc -> svc = "Wi-Fi".
Proof.
  assert (H1 : result_of (connect (calm_connect []) (ValidUrl url_plain)) fresh = Ok ok_true)
    by reflexivity.
  assert (H2 : getActiveNetworkService (service_env (proxy_env (calm_connect []))) <> "")
    by discriminate.
  split; [exact H1|]. split; [exact H2|].
  exact (proj2 (proxy_off_same_service _ _ fresh calm_cleanup H1 H2)).
Defined.

(** ** The diagnostic of a failed start *)

Lemma take_length (n : nat) (s : string) : (String.length (Js.take n s) <= n)%nat.
Proof.
  revert s. induction n as [|n IH]; intros s; [destruct s; simpl; lia|].
  destruct s as [|c s]; simpl; [lia|]. specialize (IH s). lia.
Qed.

Lemma take_all (n : nat) (s : string) : (String.length s <= n)%nat -> Js.take n s = s.
Proof.
  revert s. induction n as [|n IH]; intros s H.
  - destruct s; [reflexivity | simpl in H; lia].
  - destruct s as [|c s]; [reflexivity|]. simpl in *. rewrite IH by lia. reflexivity.
Qed.

(** X13: the diagnostic that [connect] puts after ['xray error: '] is
    never longer than 200 characters, and not longer than 150 when it was
    taken from a ['Failed to start:'] line; an output of at most 200
    characters without such a line is reported whole. *)
Theorem errMsg_bounded (out : string) :
  (String.length (errMsg out) <= 200)%nat /\
  (failMatch out <> None -> (String.length (errMsg out) <= 150)%nat) /\
  (failMatch out = None -> (String.length out <= 200)%nat -> errMsg out = out).
Proof.
  unfold errMsg. destruct (failMatch out) as [g|].
  - pose proof (take_length 150 (Js.trim g)). repeat split; try lia. discriminate.
  - pose proof (take_length 200 out). repeat split; try lia; try congruence.
    intros _. apply take_all.
Qed.

Lemma errMsg_bounded_witness :
  failMatch "Failed to start: main: bad config" <> None /\
  (String.length (errMsg "Failed to start: main: bad config") <= 150)%nat.
Proof.
  assert (H : failMatch "Failed to start: main: bad config" <> None) by discriminate.
  split; [exact H|].
  exact (proj1 (proj2 (errMsg_bounded "Failed to start: main: bad config")) H).
Defined.

Lemma span_rest (f : ascii -> bool) (s g r : string) :
  Js.span f s = (g, r) ->
  match r with
  | EmptyString => True
  | String c _ => f c = false
  end.
Proof.
  revert g r. induction s as [|c s IH]; intros g r H; simpl in H.
  - injection H as <- <-. exact I.
  - destruct (f c) eqn:Hc.
    + destruct (Js.span f s) as [a b]. injection H as <- <-. apply (IH a b eq_refl).
    + injection H as <- <-. exact Hc.
Qed.

Lemma failMatch_step (x : ascii) (out : string) :
  failMatch (String x out) =
  match Js.strip_prefix "Failed to start:" (String x out) with
  | Some rest =>
      match Js.span (fun c => negb (Js.is_line_terminator c)) rest with
      | (EmptyString, _) => failMatch out
      | (g, _) => Some g
      end
  | None => failMatch out
  end.
Proof.
  cbn [failMatch].
  destruct (Js.strip_prefix "Failed to start:" (String x out)) as [rest|]; [|reflexivity].
  destruct (Js.span (fun c => negb (Js.is_line_terminator c)) rest) as [[|c g] r];
    reflexivity.
Qed.

Lemma failMatch_decompose (out g : string) :
  failMatch out = Some g ->
  exists pre r,
    out = pre ++ "Failed to start:" ++ g ++ r /\
    g <> "" /\
    (forall c, In c (list_ascii_of_string g) -> Js.is_line_terminator c = false) /\
    match r with
    | EmptyString => True
    | String c _ => Js.is_line_terminator c = true
    end.
Proof.
  induction out as [|x out IH]; [discriminate|].
  rewrite failMatch_step.
  destruct (Js.strip_prefix "Failed to start:" (String x out)) as [rest|] eqn:Hpre.
  - destruct (Js.span (fun c => negb (Js.is_line_terminator c)) rest) as [[|c g'] r] eqn:Hsp.
    + intros H. destruct (IH H) as (pre & r' & -> & Hrest). exists (String x pre), r'.
      split; [reflexivity | exact Hrest].
    + intros H. injection H as <-.
      apply strip_prefix_app in Hpre. pose proof (span_rest _ _ _ _ Hsp) as Hr.
      apply span_app in Hsp as [-> Hall].
      exists "", r. split; [exact Hpre|]. split; [discriminate|]. split.
      * intros y Hy. apply Hall in Hy.
        destruct (Js.is_line_terminator y); [discriminate | reflexivity].
      * destruct r as [|y r]; [exact I|].
        destruct (Js.is_line_terminator y); [reflexivity | discriminate].
  - intros H. destruct (IH H) as (pre & r' & -> & Hrest). exists (String x pre), r'.
    split; [reflexivity | exact Hrest].
Qed.

Lemma failMatch_none_here (rest : string) (x : ascii) :
  failMatch ("Failed to start:" ++ String x rest) = None ->
  Js.is_line_terminator x = true.
Proof.
  change ("Failed to start:" ++ String x rest)
    with (String "F" ("ailed to start:" ++ String x rest)).
  rewrite failMatch_step.
  change (String "F" ("ailed to start:" ++ String x rest))
    with ("Failed to start:" ++ String x rest).
  rewrite strip_prefix_refl. cbn [Js.span].
  destruct (Js.is_line_terminator x); [reflexivity|]. cbn [negb].
  destruct (Js.span (fun c => negb (Js.is_line_terminator c)) rest). discriminate.
Qed.

Lemma failMatch_none_later (x : ascii) (out : string) :
  failMatch (String x out) = None -> failMatch out = None.
Proof.
  rewrite failMatch_step.
  destruct (Js.strip_prefix "Failed to start:" (String x out)) as [rest|]; [|auto].
  destruct (Js.span (fun c => negb (Js.is_line_terminator c)) rest) as [[|c g] r];
    [auto | discriminate].
Qed.

(** X14: the regular expression of [connect] finds nothing exactly when
    every ['Failed to start:'] in the output stands at its end or right
    before a line break; and what it finds is the text from the literal to
    the end of that line, never empty. *)
Theorem failMatch_spec (out : string) :
  (failMatch out = None <->
   forall pre x rest, out = pre ++ "Failed to start:" ++ String x rest ->
                      Js.is_line_terminator x = true) /\
  (forall g, failMatch out = Some g ->
     exists pre r,
       out = pre ++ "Failed to start:" ++ g ++ r /\ g <> "" /\
       (forall c, In c (list_ascii_of_string g) -> Js.is_line_terminator c = false) /\
       match r with
       | EmptyString => True
       | String c _ => Js.is_line_terminator c = true
       end).
Proof.
  split; [|apply failMatch_decompose]. split.
  - induction out as [|y out IH]; intros Hnone pre x rest Heq.
    + destruct pre; discriminate.
    + destruct pre as [|z pre].
      * change ("" ++ "Failed to start:" ++ String x rest)
          with ("Failed to start:" ++ String x rest) in Heq.
        rewrite Heq in Hnone. apply (failMatch_none_here rest x Hnone).
      * change (String z pre ++ "Failed to start:" ++ String x rest)
          with (String z (pre ++ "Failed to start:" ++ String x rest)) in Heq.
        injection Heq as _ Heq.
        apply (IH (failMatch_none_later _ _ Hnone) pre x rest Heq).
  - intros Hall. destruct (failMatch out) as [g|] eqn:Hg; [|reflexivity].
    destruct (failMatch_decompose _ _ Hg) as (pre & r & Heq & Hne & Hg' & _).
    destruct g as [|c g]; [congruence|].
    change ("Failed to start:" ++ String c g ++ r)
      with ("Failed to start:" ++ String c (g ++ r)) in Heq.
    specialize (Hall pre c (g ++ r) Heq).
    rewrite (Hg' c) in Hall by (left; reflexivity). discriminate.
Qed.

Lemma failMatch_spec_witness :
  exists pre r,
    failed_output = pre ++ "Failed to start:" ++ " main: failed to load config files" ++ r /\
    match r with
    | EmptyString => True
    | String c _ => Js.is_line_terminator c = true
    end.
Proof.
  destruct (proj2 (failMatch_spec failed_output) " main: failed to load config files" eq_refl)
    as (pre & r & Heq & _ & _ & Hr).
  exists pre, r. split; [exact Heq | exact Hr].
Defined.

(** ** The network service *)




(** ** The totals shown and the totals kept *)

(** X18: the totals that [getTrafficStats] reports are those that
    [disconnect] leaves in the cumulative record when the engine answers
    its two queries as it answered the report's: in a live session the
    stored totals plus the session's counters, otherwise the stored
    totals. *)
Theorem shown_totals_are_kept (ce : CleanupEnv) (m : Manager) :
  exists r,
    result_of (getTrafficStats (counters_of (fold_env ce))) m = Ok r /\
    totals r = cumulativeStats (state_after (disconnect ce) m).
Proof.
  unfold result_of, state_after. rewrite disconnect_run. cbn [fst snd].
  unfold getTrafficStats. rewrite bind_run. unfold get at 1.
  assert (Hguard : negb (bool_decide (status m = Connected)) ||
                   negb (bool_decide (is_Some (process m))) = negb (in_session m)).
  { unfold in_session. destruct (bool_decide (status m = Connected)),
      (bool_decide (is_Some (process m))); reflexivity. }
  rewrite Hguard. unfold cleanup_state, fold_state.
  assert (Heta : forall s : Stats, {| uplink := uplink s; downlink := downlink s |} = s)
    by (intros []; reflexivity).
  destruct (in_session m); cbn [negb].
  - unfold try_catch. rewrite bind_run, getXrayPath_run. cbn [counters_of stats_bin].
    destruct (locate (fold_bin (fold_env ce))) as [p|].
    + rewrite bind_run, queryStats_run, bind_run, queryStats_run.
      eexists. split; [reflexivity|]. unfold totals. cbn.
      destruct (process m); reflexivity.
    + eexists. split; [reflexivity|]. unfold totals. cbn.
      destruct (process m); cbn; apply Heta.
  - eexists. split; [reflexivity|]. unfold totals. cbn.
    destruct (process m); cbn; apply Heta.
Qed.

(** ** The window's reading of a key *)

Lemma lacks_app (c : ascii) (a b : string) :
  lacks c (a ++ b) = lacks c a && lacks c b.
Proof.
  induction a as [|x a IH]; [reflexivity|].
  change (lacks c (String x (a ++ b)) = lacks c (String x a) && lacks c b).
  cbn [lacks]. rewrite IH. apply andb_assoc.
Qed.

Lemma indexOf_from_lacks (c : ascii) (i : Z) (s : string) :
  lacks c s = true -> Js.indexOf_from c i s = -1.
Proof.
  revert i. induction s as [|x s IH]; intros i H; [reflexivity|].
  cbn [lacks] in H. apply andb_true_iff in H as [Hx Hs].
  cbn [Js.indexOf_from]. apply negb_true_iff in Hx. rewrite Hx. apply IH, Hs.
Qed.

Lemma indexOf_from_app (c : ascii) (i : Z) (a b : string) :
  lacks c a = true ->
  Js.indexOf_from c i (a ++ String c b) = i + Z.of_nat (String.length a).
Proof.
  revert i. induction a as [|x a IH]; intros i H.
  - change (Js.indexOf_from c i (String c b) = i + 0).
    cbn [Js.indexOf_from]. rewrite Ascii.eqb_refl. lia.
  - cbn [lacks] in H. apply andb_true_iff in H as [Hx Ha].
    change (Js.indexOf_from c i (String x (a ++ String c b)) =
            i + Z.of_nat (S (String.length a))).
    cbn [Js.indexOf_from]. apply negb_true_iff in Hx. rewrite Hx.
    rewrite (IH _ Ha). lia.
Qed.

Lemma lastIndexOf_from_lacks (c : ascii) (i last : Z) (s : string) :
  lacks c s = true -> Js.lastIndexOf_from c i last s = last.
Proof.
  revert i. induction s as [|x s IH]; intros i H; [reflexivity|].
  cbn [lacks] in H. apply andb_true_iff in H as [Hx Hs].
  cbn [Js.lastIndexOf_from]. apply negb_true_iff in Hx. rewrite Hx. apply IH, Hs.
Qed.

Lemma lastIndexOf_from_app (c : ascii) (i last : Z) (a b : string) :
  lacks c b = true ->
  Js.lastIndexOf_from c i last (a ++ String c b) = i + Z.of_nat (String.length a).
Proof.
  intros Hb. revert i last. induction a as [|x a IH]; intros i last.
  - change (Js.lastIndexOf_from c i last (String c b) = i + 0).
    cbn [Js.lastIndexOf_from]. rewrite Ascii.eqb_refl.
    rewrite (lastIndexOf_from_lacks _ _ _ _ Hb). lia.
  - change (Js.lastIndexOf_from c i last (String x (a ++ String c b)) =
            i + Z.of_nat (S (String.length a))).
    cbn [Js.lastIndexOf_from]. rewrite IH. lia.
Qed.

Lemma take_app (a b : string) : Js.take (String.length a) (a ++ b) = a.
Proof.
  induction a as [|x a IH]; [destruct b; reflexivity|].
  change (Js.take (S (String.length a)) (String x (a ++ b)) = String x a).
  cbn [Js.take]. rewrite IH. reflexivity.
Qed.

Lemma drop_app (a b : string) : Js.drop (String.length a) (a ++ b) = b.
Proof.
  induction a as [|x a IH]; [destruct b; reflexivity|].
  change (Js.drop (S (String.length a)) (String x (a ++ b)) = b).
  cbn [Js.drop]. exact IH.
Qed.

Lemma slice_to_app (a b : string) :
  Js.slice_to (Z.of_nat (String.length a)) (a ++ b) = a.
Proof.
  unfold Js.slice_to.
  destruct (Z.ltb_spec (Z.of_nat (String.length a)) 0) as [H | _]; [lia|].
  rewrite Nat2Z.id. apply take_app.
Qed.

Lemma length_app (a b : string) :
  String.length (a ++ b) = (String.length a + String.length b)%nat.
Proof.
  induction a as [|x a IH]; [reflexivity|].
  change (S (String.length (a ++ b)) = S (String.length a + String.length b)).
  rewrite IH. reflexivity.
Qed.

Lemma drop_past (c : ascii) (a b : string) :
  Js.drop (Z.to_nat (Z.of_nat (String.length a) + 1)) (a ++ String c b) = b.
Proof.
  replace (Z.to_nat (Z.of_nat (String.length a) + 1)) with (String.length (a ++ String c ""))%nat.
  - replace (a ++ String c b) with ((a ++ String c "") ++ b); [apply drop_app|].
    rewrite append_assoc. reflexivity.
  - rewrite length_app. simpl. lia.
Qed.

(** Cutting at the last occurrence of a separator, as the window does for
    [#] and [:]. *)
Lemma cut_last (c : ascii) (main : string) (o : option string) :
  lacks c (match o with Some f => f | None => main end) = true ->
  let s := main ++ part c o in
  let i := Js.lastIndexOf c s in
  (if 0 <=? i then Js.slice_to i s else s) = main /\
  (if 0 <=? i then Some (Js.drop (Z.to_nat (i + 1)) s) else None) = o.
Proof.
  intros H. cbv zeta. unfold Js.lastIndexOf. destruct o as [f|]; cbn [part].
  - rewrite (lastIndexOf_from_app _ _ _ _ _ H). rewrite Z.add_0_l.
    destruct (Z.leb_spec 0 (Z.of_nat (String.length main))) as [_ | Hlt]; [|lia].
    rewrite slice_to_app, drop_past. split; reflexivity.
  - rewrite append_empty, (lastIndexOf_from_lacks _ _ _ _ H). split; reflexivity.
Qed.

(** Cutting at the first occurrence, as the window does for [?]. *)
Lemma cut_first (c : ascii) (main : string) (o : option string) :
  lacks c main = true ->
  let s := main ++ part c o in
  let i := Js.indexOf c s in
  (if 0 <=? i then Js.slice_to i s else s) = main /\
  (if 0 <=? i then Some (Js.drop (Z.to_nat (i + 1)) s) else None) = o.
Proof.
  intros H. cbv zeta. unfold Js.indexOf. destruct o as [f|]; cbn [part].
  - rewrite (indexOf_from_app _ _ _ _ H). rewrite Z.add_0_l.
    destruct (Z.leb_spec 0 (Z.of_nat (String.length main))) as [_ | Hlt]; [|lia].
    rewrite slice_to_app, drop_past. split; reflexivity.
  - rewrite append_empty, (indexOf_from_lacks _ _ _ H). split; reflexivity.
Qed.

Lemma choice_default {A B} (b : bool) (x : A) (f : A -> B) (d : B) (o : option A) :
  (if b then Some x else None) = o ->
  (if b then f x else d) = match o with Some v => f v | None => d end.
Proof. intros <-. destruct b; reflexivity. Qed.

(** X22: the window's [parseVlessUri] reads a key of the form
    [vless://uuid@host[:port][?query][#remark]] back into its parts: when
    the user id has no [@], nothing before the query has a [?], the port
    (or the host, when there is none) has no [:], and the remark (or the
    whole key, when there is none) has no [#], it returns that user id,
    host and query, the port read by [parseInt] or 443 when the key has
    none, and as label the decoded remark or, when the remark is missing or
    empty, the host; it returns [null] only when a remark cannot be
    decoded. *)
Theorem renderer_reads_parts (uuid host : string) (port query remark : option string) :
  lacks "@" uuid = true ->
  lacks "?" (uuid ++ "@" ++ host ++ part ":" port) = true ->
  lacks ":" (match port with Some p => p | None => host end) = true ->
  lacks "#" (match remark with
             | Some f => f
             | None => uuid ++ "@" ++ host ++ part ":" port ++ part "?" query
             end) = true ->
  Renderer.parseVlessUri (key_text uuid host port query remark) =
  match (match remark with
         | Some f => if Js.truthy f then Js.decodeURIComponent f else Some host
         | None => Some host
         end) with
  | Some l =>
      Some {| Renderer.uuid := uuid; Renderer.host := host;
              Renderer.port := match port with
                               | Some p => Js.parseInt p
                               | None => Js.Num 443
                               end;
              Renderer.label := l;
              Renderer.query := match query with Some q => q | None => "" end |}
  | None => None
  end.
Proof.
  intros Hat Hq Hcolon Hhash.
  set (hostPort := host ++ part ":" port).
  set (userHost := uuid ++ "@" ++ hostPort).
  set (mainPart := userHost ++ part "?" query).
  assert (Htext : key_text uuid host port query remark =
                  "vless://" ++ (mainPart ++ part "#" remark)).
  { unfold key_text, mainPart, userHost, hostPort.
    rewrite !append_assoc. reflexivity. }
  assert (Hhash' : lacks "#" (match remark with Some f => f | None => mainPart end) = true).
  { destruct remark; [exact Hhash|]. unfold mainPart, userHost, hostPort.
    rewrite !append_assoc. exact Hhash. }
  assert (Hq' : lacks "?" userHost = true).
  { unfold userHost, hostPort. exact Hq. }
  destruct (cut_last "#" mainPart remark Hhash') as [Hmain Hremark].
  destruct (cut_first "?" userHost query Hq') as [Huser Hquery].
  destruct (cut_last ":" host port Hcolon) as [Hhost Hport].
  fold mainPart in Huser, Hquery. fold hostPort in Hhost, Hport.
  assert (Hidx : Js.indexOf "@" userHost = Z.of_nat (String.length uuid)).
  { unfold Js.indexOf, userHost.
    change (uuid ++ "@" ++ hostPort) with (uuid ++ String "@" hostPort).
    rewrite (indexOf_from_app _ _ _ _ Hat). lia. }
  assert (Huuid : Js.slice_to (Js.indexOf "@" userHost) userHost = uuid).
  { rewrite Hidx. apply slice_to_app. }
  assert (Hhp : Js.drop (Z.to_nat (Js.indexOf "@" userHost + 1)) userHost = hostPort).
  { rewrite Hidx. unfold userHost.
    change (uuid ++ "@" ++ hostPort) with (uuid ++ String "@" hostPort).
    apply drop_past. }
  rewrite Htext. unfold Renderer.parseVlessUri.
  unfold Js.startsWith at 1.
  rewrite (strip_prefix_refl "vless://" (mainPart ++ part "#" remark)).
  cbn [negb].
  change (Js.drop 8 ("vless://" ++ mainPart ++ part "#" remark))
    with (mainPart ++ part "#" remark).
  cbv zeta.
  set (hashIdx := Js.lastIndexOf "#" (mainPart ++ part "#" remark)) in *.
  rewrite Hmain.
  set (qIdx := Js.indexOf "?" mainPart) in *.
  rewrite Huser, Huuid, Hhp.
  set (colonIdx := Js.lastIndexOf ":" hostPort) in *.
  rewrite Hhost.
  assert (Hrem : (if 0 <=? hashIdx
                  then Js.drop (Z.to_nat (hashIdx + 1)) (mainPart ++ part "#" remark)
                  else "") = match remark with Some f => f | None => "" end).
  { apply (choice_default _ _ (fun x => x)), Hremark. }
  assert (Hqs : (if 0 <=? qIdx then Js.drop (Z.to_nat (qIdx + 1)) mainPart else "") =
                match query with Some q => q | None => "" end).
  { apply (choice_default _ _ (fun x => x)), Hquery. }
  assert (Hpt : (if 0 <=? colonIdx
                 then Js.parseInt (Js.drop (Z.to_nat (colonIdx + 1)) hostPort)
                 else Js.Num 443) =
                match port with Some p => Js.parseInt p | None => Js.Num 443 end).
  { apply (choice_default _ _ Js.parseInt), Hport. }
  rewrite Hrem, Hqs, Hpt.
  destruct remark as [f|]; reflexivity.
Qed.

Lemma renderer_reads_parts_witness :
  lacks "@" "uuid" = true /\
  Renderer.parseVlessUri text_no_port =
    Some {| Renderer.uuid := "uuid"; Renderer.host := "example.com";
            Renderer.port := Js.Num 443; Renderer.label := "Home";
            Renderer.query := "security=tls" |}.
Proof.
  split; [reflexivity|].
  exact (renderer_reads_parts "uuid" "example.com" None (Some "security=tls") (Some "Home")
           eq_refl eq_refl eq_refl eq_refl).
Defined.

(** ** The tray and the engine *)

Lemma connect_status e uri m :
  status (connect_state e uri m) =
  match connect_result e uri with
  | ok_true => Connected
  | ok_false _ => Error
  end.
Proof.
  unfold connect_state, connect_result.
  destruct (attempt e uri) as [c p | msg calls spawned]; [reflexivity|].
  rewrite (proj1 (cleanup_state_fields _ _)). reflexivity.
Qed.

Lemma hbind_run {A B} (c : Main.H A) (f : A -> Main.H B) (s : Main.State) :
  (c ≫= f) s =
  match c s with
  | (Ok a, s1, t1) => let '(r, s2, t2) := f a s1 in (r, s2, (t1 ++ t2)%list)
  | (Throw e, s1, t1) => (Throw e, s1, t1)
  end.
Proof. reflexivity. Qed.

Lemma engine_run {A} (c : M A) (s : Main.State) r m t :
  c (Main.xray s) = (r, m, t) ->
  Main.engine c s =
  (r, {| Main.xray := m; Main.vpnStatus := Main.vpnStatus s; Main.tray := Main.tray s |},
   map Main.Engine t).
Proof. intros H. unfold Main.engine. rewrite H. reflexivity. Qed.

(** The tray after [updateTrayMenu] under the status [st]. *)
Lemma setVpnStatus_run (w : bool) (st : Main.VpnStatus) (s : Main.State) :
  Main.setVpnStatus w st s =
  (Ok tt,
   {| Main.xray := Main.xray s; Main.vpnStatus := st;
      Main.tray := match Main.tray s with Some _ => Some (Some st) | None => None end |},
   if w then [Main.StatusChanged st] else []).
Proof.
  unfold Main.setVpnStatus, Main.set_vpnStatus, Main.updateTrayMenu, Main.set_tray,
    Main.send. rewrite !hbind_run. cbn.
  destruct (Main.tray s), w; reflexivity.
Qed.

Lemma vpn_connect_run w w' e uri s :
  exists s' t,
    Main.vpn_connect w w' e uri s = (Ok (connect_result e uri), s', t) /\
    Main.xray s' = connect_state e uri (Main.xray s) /\
    Main.vpnStatus s' = Main.shown (status (Main.xray s')) /\
    Main.tray s' = (match Main.tray s with
                    | Some _ => Some (Some (Main.vpnStatus s'))
                    | None => None
                    end) /\
    t = ((if w then [Main.StatusChanged Main.connecting] else []) ++
         map Main.Engine (connect_trace e uri (Main.xray s)) ++
         (if w' then [Main.StatusChanged (Main.vpnStatus s')] else []))%list.
Proof.
  unfold Main.vpn_connect. rewrite hbind_run, setVpnStatus_run, hbind_run.
  rewrite (engine_run _ _ _ _ _ (connect_run e uri _)). cbn [Main.xray].
  rewrite hbind_run, setVpnStatus_run. cbn [Main.xray Main.vpnStatus Main.tray].
  do 2 eexists. split; [reflexivity|]. cbn [Main.xray Main.vpnStatus Main.tray].
  split; [reflexivity|]. rewrite connect_status. split.
  { destruct (connect_result e uri); reflexivity. }
  split.
  { destruct (Main.tray s); reflexivity. }
  rewrite app_nil_r. reflexivity.
Qed.

Lemma vpn_disconnect_run w e s :
  Main.vpn_disconnect w e s =
  (Ok ok_true,
   {| Main.xray := with_status (cleanup_state e (Main.xray s)) Disconnected None;
      Main.vpnStatus := Main.disconnected;
      Main.tray := match Main.tray s with
                   | Some _ => Some (Some Main.disconnected)
                   | None => None
                   end |},
   (map Main.Engine (cleanup_trace e (Main.xray s)) ++
    (if w then [Main.StatusChanged Main.disconnected] else []))%list).
Proof.
  unfold Main.vpn_disconnect. rewrite hbind_run.
  rewrite (engine_run _ _ _ _ _ (disconnect_run e _)).
  rewrite hbind_run, setVpnStatus_run. cbn [Main.xray Main.vpnStatus Main.tray].
  unfold mret, Main.H_ret. rewrite app_nil_r. reflexivity.
Qed.

Lemma handle_agrees (c : Main.Call) (s : Main.State) :
  Main.agrees s ->
  exists s' t, Main.handle c s = (Ok tt, s', t) /\ Main.agrees s'.
Proof.
  intros [Hs Hm]. destruct c as [w w' e uri | w e | w e |]; unfold Main.handle.
  - destruct (vpn_connect_run w w' e uri s) as (s' & t & Hrun & _ & Hst & Htray & _).
    do 2 eexists. rewrite hbind_run, Hrun. split; [reflexivity|].
    split; [exact Hst|]. rewrite Htray. destruct (Main.tray s); auto.
  - do 2 eexists. rewrite hbind_run, vpn_disconnect_run. split; [reflexivity|].
    split; [reflexivity|]. cbn. destruct (Main.tray s); auto.
  - assert (Hkeep : Main.agrees s) by (split; assumption).
    unfold Main.connectAction.
    destruct (Main.tray s) as [[b|]|] eqn:Htray;
      [destruct b | |];
      try (destruct w; do 2 eexists; (split; [reflexivity | exact Hkeep])).
    do 2 eexists. rewrite hbind_run.
    rewrite (engine_run _ _ _ _ _ (disconnect_run e _)), setVpnStatus_run.
    cbn [Main.xray Main.vpnStatus Main.tray]. rewrite Htray.
    split; [reflexivity|]. split; reflexivity.
  - do 2 eexists. unfold Main.createTray, Main.updateTrayMenu, Main.set_tray.
    rewrite hbind_run. cbn.
    split; [reflexivity|]. split; [exact Hs | reflexivity].
Qed.

(** X21: in the main process the tray follows the engine.  Once
    [vpnStatus] tells the manager's status (as it does at the start), it
    does so after every run of the [vpn:connect] and [vpn:disconnect]
    handlers, of a click on the tray's connect item and of [createTray],
    each run to its end: it is ['connected'] exactly when the manager's
    status is ['connected'], never left at ['connecting'], and the tray's
    menu, once built, was built for it; none of these handlers throws. *)
Theorem tray_follows_engine (cs : list Main.Call) (s : Main.State) :
  Main.agrees s ->
  exists s' t,
    Main.handle_all cs s = (Ok tt, s', t) /\
    Main.agrees s' /\
    (Main.vpnStatus s' = Main.connected <-> status (Main.xray s') = Connected) /\
    Main.vpnStatus s' <> Main.connecting.
Proof.
  assert (Hread : forall s, Main.agrees s ->
            (Main.vpnStatus s = Main.connected <-> status (Main.xray s) = Connected) /\
            Main.vpnStatus s <> Main.connecting).
  { intros s0 [H0 _]. rewrite H0. destruct (status (Main.xray s0)); cbn;
      split; try split; congruence. }
  revert s. induction cs as [|c cs IH]; intros s Hs.
  - exists s, []. split; [reflexivity|]. split; [exact Hs | apply Hread, Hs].
  - destruct (handle_agrees c s Hs) as (s1 & t1 & H1 & Hs1).
    destruct (IH s1 Hs1) as (s2 & t2 & H2 & Hs2 & Hrest).
    exists s2, (t1 ++ t2)%list. split; [|split; assumption].
    cbn [Main.handle_all]. unfold mbind at 1, Main.H_bind at 1. rewrite H1, H2. reflexivity.
Qed.

Lemma tray_follows_engine_witness :
  exists s,
    Main.boot Absent = Ok s /\ Main.agrees s /\
    exists s' t,
      Main.handle_all
        [ Main.CreateTray;
          Main.VpnConnect true true (calm_connect [Stdout "Xray 1.8.4 started"])
                          (ValidUrl url_plain);
          Main.TrayClick true calm_cleanup ] s = (Ok tt, s', t) /\
      Main.agrees s'.
Proof.
  eexists. split; [reflexivity|].
  assert (Hs : Main.agrees {| Main.xray := fresh; Main.vpnStatus := Main.disconnected;
                              Main.tray := None |}).
  { split; [reflexivity | exact I]. }
  split; [exact Hs|].
  destruct (tray_follows_engine
              [ Main.CreateTray;
                Main.VpnConnect true true (calm_connect [Stdout "Xray 1.8.4 started"])
                                (ValidUrl url_plain);
                Main.TrayClick true calm_cleanup ] _ Hs) as (s' & t & Hrun & Hag & _).
  exists s', t. split; assumption.
Defined.

(** ** The window *)

Section HookFacts.

Context {W E : Type}.





End HookFacts.


(** ** The window on the main process *)


Lemma connect_error e uri m :
  error (connect_state e uri m) =
  match connect_result e uri with
  | ok_true => None
  | ok_false msg => Some msg
  end.
Proof.
  unfold connect_state, connect_result.
  destruct (attempt e uri) as [c p | msg calls spawned]; [reflexivity|].
  rewrite (proj1 (proj2 (cleanup_state_fields _ _))). reflexivity.
Qed.

Lemma no_spawn_no_start (l : list Event) :
  existsb is_spawn l = false ->
  existsb starts_engine (map Hook.Remote (map Main.Engine l)) = false.
Proof.
  induction l as [|ev l IH]; [reflexivity|].
  cbn. intros H. apply orb_false_iff in H as [Hev Hl].
  rewrite (IH Hl). destruct ev; cbn in *; congruence.
Qed.

Section StackFacts.

Variable url : string -> Uri.

Lemma ipc_connect_run w w' e text s :
  exists s' t,
    ipc_connect url w w' e text s = (Ok (reply_of (connect_result e (url text))), s', t) /\
    Main.xray s' = connect_state e (url text) (Main.xray s) /\
    Main.agrees s' /\
    t = ((if w then [Main.StatusChanged Main.connecting] else []) ++
         map Main.Engine (connect_trace e (url text) (Main.xray s)) ++
         (if w' then [Main.StatusChanged (Main.vpnStatus s')] else []))%list.
Proof.
  destruct (vpn_connect_run w w' e (url text) s) as (s' & t & Hrun & Hx & Hst & Htray & Ht).
  exists s', t. unfold ipc_connect, invoke. rewrite Hrun.
  split; [reflexivity|]. split; [exact Hx|]. split; [|exact Ht].
  split; [exact Hst|]. rewrite Htray. destruct (Main.tray s); auto.
Qed.

Lemma ipc_disconnect_run w d s :
  exists s' t,
    ipc_disconnect w d s = (Ok (reply_of ok_true), s', t) /\
    Main.xray s' = with_status (cleanup_state d (Main.xray s)) Disconnected None /\
    Main.agrees s' /\
    t = (map Main.Engine (cleanup_trace d (Main.xray s)) ++
         (if w then [Main.StatusChanged Main.disconnected] else []))%list.
Proof.
  unfold ipc_disconnect, invoke. rewrite vpn_disconnect_run.
  do 2 eexists. split; [reflexivity|]. split; [reflexivity|]. split; [|reflexivity].
  split; [reflexivity|]. cbn. destruct (Main.tray s); auto.
Qed.





(** X27: what the manager finds reaches the window.  A [connect] of the
    hook that gets past its two guards (a URI is given and its closure's
    state is neither ['CONNECTING'] nor ['CONNECTED']) runs the manager's
    [connect] on that URI once; the hook ends ['CONNECTED'] without a
    message when the manager is connected, and otherwise ['ERROR'] with the
    manager's own error as message, or ['Connection failed'] when that
    error is empty. *)
Theorem failure_reaches_window seen uri text w w' e ipify v s :
  Hook.given uri = Some text -> Hook.engaged seen = false ->
  exists v' s' t,
    Hook.connect seen uri (ipc_connect url w w' e) ipify v s = (v', s', t) /\
    Main.xray s' = connect_state e (url text) (Main.xray s) /\
    match status (Main.xray s') with
    | Connected =>
        Hook.state v' = Hook.CONNECTED /\ Hook.errorMsg v' = None /\
        error (Main.xray s') = None
    | _ =>
        Hook.state v' = Hook.ERROR /\ Hook.ip v' = None /\
        status (Main.xray s') = Error /\
        exists msg,
          error (Main.xray s') = Some msg /\
          Hook.errorMsg v' = Some (if Js.truthy msg then msg else "Connection failed")
    end.
Proof.
  intros Hgiven Hfree. unfold Hook.connect. rewrite Hgiven, Hfree.
  destruct (ipc_connect_run w w' e text s) as (s' & t & Hrun & Hx & _ & _).
  rewrite Hrun.
  destruct (connect_result e (url text)) as [|msg] eqn:Hres; cbn.
  - do 3 eexists. split; [reflexivity|].
    rewrite Hx, connect_status, connect_error, Hres.
    split; [reflexivity|]. repeat split; reflexivity.
  - do 3 eexists. split; [reflexivity|].
    rewrite Hx, connect_status, connect_error, Hres.
    split; [reflexivity|]. repeat split; try reflexivity.
    exists msg. split; reflexivity.
Qed.

(** X25: selecting a server never starts the engine.  The main screen's
    [handleSelectServer] does nothing unless its render's state is
    ['CONNECTED'], the server changed and has a URI; then it does exactly
    what [disconnect] does: the [connect] that [handleSwitchServer] calls
    next still sees ['CONNECTED'] and returns at once, so the new URI never
    reaches the main process and the window is left ['DISCONNECTED']. *)
Theorem select_server_never_connects seen changed newUri w w' e d ipify v s :
  (Hook.handleSelectServer seen changed newUri
     (ipc_connect url w w' e) (ipc_disconnect w d) ipify v s = (v, s, []) \/
   (seen = Hook.CONNECTED /\
    Hook.handleSelectServer seen changed newUri
      (ipc_connect url w w' e) (ipc_disconnect w d) ipify v s =
    Hook.disconnect (ipc_disconnect w d) v s)) /\
  existsb starts_engine
    (Hook.handleSelectServer seen changed newUri
       (ipc_connect url w w' e) (ipc_disconnect w d) ipify v s).2 = false.
Proof.
  unfold Hook.handleSelectServer.
  destruct seen, changed, (Hook.given newUri) as [text|] eqn:Hgiven;
    try (split; [left; reflexivity | reflexivity]).
  unfold Hook.handleSwitchServer.
  assert (Hg : Hook.given (Some text) = Some text).
  { destruct newUri as [u|]; [|discriminate]. cbn in Hgiven.
    destruct (Js.truthy u) eqn:Hu; [|discriminate]. injection Hgiven as ->.
    cbn. rewrite Hu. reflexivity. }
  unfold Hook.disconnect.
  destruct (ipc_disconnect_run w d s) as (s' & t & Hrun & _ & _ & Ht).
  rewrite Hrun. unfold Hook.connect. rewrite Hg. cbn [Hook.engaged].
  rewrite app_nil_r. split; [right; split; reflexivity|]. cbn [snd].
  rewrite Ht, map_app, existsb_app.
  apply orb_false_iff. split.
  - apply no_spawn_no_start, cleanup_trace_no_spawn.
  - destruct w; reflexivity.
Qed.

End StackFacts.


Lemma failure_reaches_window_witness :
  Hook.given (Some "vless://uuid@example.com:443") = Some "vless://uuid@example.com:443" /\
  Hook.engaged Hook.ERROR = false /\
  exists v' s' t,
    Hook.connect Hook.ERROR (Some "vless://uuid@example.com:443")
      (ipc_connect sample_url true true (calm_connect [ProcError "spawn EACCES"]))
      (Ok None) Hook.initial idle_main = (v', s', t) /\
    Main.xray s' =
      connect_state (calm_connect [ProcError "spawn EACCES"])
        (sample_url "vless://uuid@example.com:443") (Main.xray idle_main).
Proof.
  split; [reflexivity|]. split; [reflexivity|].
  destruct (failure_reaches_window sample_url Hook.ERROR
              (Some "vless://uuid@example.com:443") "vless://uuid@example.com:443"
              true true (calm_connect [ProcError "spawn EACCES"]) (Ok None)
              Hook.initial idle_main eq_refl eq_refl) as (v' & s' & t & Hrun & Hx & _).
  exists v', s', t. split; assumption.
Defined.
